(** * Command layer of the telescope control system: commands.go

    A shallow embedding of [commands.go] (package main of
    ccatp/telescope-control-system) and the properties of its kinematic
    validator, of the [Check] and [Start] methods of the four commands and of
    the completion predicates they return.

    Go's [float64] is Rocq's primitive binary64 [float]: the comparisons,
    [math.Abs] and the subtraction of the source are the IEEE 754
    operations of [PrimFloat], NaN and the infinities included.  Constants
    written in decimal in the source ([1e-4], [0.05]) are the nearest
    binary64 values, as the Go compiler converts them. *)

From Stdlib Require Import ZArith QArith Qpower Qabs Lia Lqa Bool List String.
From Stdlib Require Import Floats.
Import ListNotations.

Set Warnings "-inexact-float".

(** ** The real value of a binary64 number *)

Module Float64.

Local Open Scope Z_scope.

(** Extended rationals: what a [float64] denotes. *)
Inductive ereal : Type :=
| ENaN
| ENegInf
| EFin (q : Q)
| EPosInf.

Definition SF2E (x : spec_float) : ereal :=
  match x with
  | S754_zero _ => EFin 0
  | S754_infinity s => if s then ENegInf else EPosInf
  | S754_nan => ENaN
  | S754_finite s m e => EFin (inject_Z (cond_Zopp s (Zpos m)) * 2 ^ e)%Q
  end.

Definition value (x : float) : ereal := SF2E (Prim2SF x).

(** Strict order of the extended rationals; NaN is not comparable. *)
Definition elt (a b : ereal) : Prop :=
  match a, b with
  | ENegInf, EFin _ | ENegInf, EPosInf | EFin _, EPosInf => True
  | EFin p, EFin q => (p < q)%Q
  | _, _ => False
  end.

Definition eabs (a : ereal) : ereal :=
  match a with
  | ENaN => ENaN
  | ENegInf | EPosInf => EPosInf
  | EFin q => EFin (Qabs q)
  end.

Definition is_nan_value (x : float) : Prop := value x = ENaN.

(** [x] is a real number within [[lo, hi]]. *)
Definition within (lo hi : Q) (x : float) : Prop :=
  match value x with
  | EFin q => (lo <= q <= hi)%Q
  | _ => False
  end.

(** [x] is a real number of absolute value at most [b]. *)
Definition abs_le (b : Q) (x : float) : Prop :=
  match value x with
  | EFin q => (Qabs q <= b)%Q
  | _ => False
  end.

(** [x] is a real number of absolute value below [b]. *)
Definition abs_lt (b : Q) (x : float) : Prop :=
  match value x with
  | EFin q => (Qabs q < b)%Q
  | _ => False
  end.

(** [x] is a real number (or minus infinity) below [b]. *)
Definition below (b : Q) (x : float) : Prop := elt (value x) (EFin b).

(** Go's [a > b] on float64. *)
Definition gtb (a b : float) : bool := PrimFloat.ltb b a.

(** The integer [x * 2^1074] of a finite binary64 number [x]. *)
Definition scaled (s : bool) (m : positive) (e : Z) : Z :=
  cond_Zopp s (Zpos m * 2 ^ (e + 1074)).

(** Zero and the finite numbers, as integer multiples of [2^-1074]. *)
Definition SFscaled (x : spec_float) : option Z :=
  match x with
  | S754_zero _ => Some 0
  | S754_finite s m e => Some (scaled s m e)
  | _ => None
  end.

Definition ulp0 : Q := (2 ^ (-1074))%Q.

(** [c] denotes the rational [q]. *)
Definition denotes (c : float) (q : Q) : Prop :=
  exists q', value c = EFin q' /\ (q' == q)%Q.

(** [x] is plus infinity or a real number that is at least [b]. *)
Definition at_least (b : Q) (x : float) : Prop :=
  match value x with
  | EFin q => (b <= q)%Q
  | EPosInf => True
  | _ => False
  end.

End Float64.

Import Float64.

Infix ">?" := gtb (at level 70, no associativity) : float_scope.

(** ** Errors, diagnostic log and state passing *)

(** The errors of [commands.go], one constructor per [fmt.Errorf] call site.
    The fields are the arguments of the format string. *)
Inductive error : Type :=
| errOutOfRange (what : string) (v lo hi : float)
    (** ["commanded <what> (%g) out of range [%g,%g]"] *)
| errBadCoordsys (coordsys : string)
    (** ["bad coordinate system: %s"] *)
| errBadTimes (start stop : float)
    (** ["bad times: start=%f, stop=%f"] *)
| errNoPoints
    (** ["no points in path"] *)
| errSpacing
    (** ["points are separated by less than 50 ms"] *)
| errPoint (i : Z) (err : error)
    (** ["point %d: %w"] *)
| errExternal (msg : string)
    (** an error returned by a collaborator outside [commands.go] *).

(** Code that threads a mutable object: the standard logger for [Check],
    the telescope for [Start]. *)
Definition State (S A : Type) : Type := S -> A * S.

Definition ret {S A : Type} (a : A) : State S A := fun s => (a, s).

Definition bind {S A B : Type} (m : State S A) (k : A -> State S B) : State S B :=
  fun s => let (a, s') := m s in k a s'.

Notation "x <- m ;; k" := (bind m (fun x => k))
  (at level 61, m at next level, right associativity).
Notation "m ;;; k" := (bind m (fun _ => k))
  (at level 61, right associativity).

(** The lines written by [log.Print], oldest first. *)
Definition Log : Type := list error.

Definition log_Print (e : error) : State Log unit := fun l => (tt, l ++ [e]).

(** ** Constants *)

Local Open Scope float_scope.

Definition positionTol : float := 1e-4.
Definition speedTol : float := 1e-4.
Definition maxFreeProgramTrackStack : Z := 10000.

Definition azimuthMin : float := -180.0.
Definition azimuthMax : float := 360.0.
Definition azimuthSpeedMax : float := 3.0.

Definition elevationMin : float := 0.0.
Definition elevationMax : float := 180.0.
Definition elevationSpeedMax : float := 1.5.

(** ** The kinematic validator *)

Definition checkAzEl (az el vaz vel : float) : State Log (option error) :=
  if (az <? azimuthMin) || (az >? azimuthMax) then
    let error := errOutOfRange "azimuth" az azimuthMin azimuthMax in
    log_Print error ;;;
    ret (Some error)
  else if (el <? elevationMin) || (el >? elevationMax) then
    let error := errOutOfRange "elevation" el elevationMin elevationMax in
    log_Print error ;;;
    ret (Some error)
  else if abs vaz >? azimuthSpeedMax then
    let error := errOutOfRange "azimuth vel" vaz (- azimuthSpeedMax) azimuthSpeedMax in
    log_Print error ;;;
    ret (Some error)
  else if abs vel >? elevationSpeedMax then
    let error := errOutOfRange "elevation vel" vel (- elevationSpeedMax) elevationSpeedMax in
    log_Print error ;;;
    ret (Some error)
  else
    ret None.

(** ** Telemetry and trajectory points (package datasets) *)

(** The fields of [datasets.StatusGeneral8100] that [commands.go] reads.
    The axis modes and the stack count are integer fields. *)
Record StatusGeneral8100 : Type := {
  AzimuthMode : Z;
  ElevationMode : Z;
  AzimuthCurrentPosition : float;
  AzimuthCommandedPosition : float;
  ElevationCurrentPosition : float;
  ElevationCommandedPosition : float;
  AzimuthCurrentVelocity : float;
  ElevationCurrentVelocity : float;
  QtyOfFreeProgramTrackStackPositions : Z
}.

(** The fields of [datasets.TimePositionTransfer] that [commands.go] reads. *)
Record TimePositionTransfer : Type := {
  AzPosition : float;
  ElPosition : float;
  AzVelocity : float;
  ElVelocity : float
}.

Definition IsDoneFunc : Type := StatusGeneral8100 -> bool * option error.

(** ** The scan pattern protocol *)

(** The [ScanPattern] interface as [commands.go] drives it: [Iterator]
    makes a fresh iterator, [Done] reads it, [Next] advances it and either
    fails or fills in the point it was handed. *)
Record ScanPattern : Type := {
  iter_t : Type;
  Iterator : iter_t;
  Done : iter_t -> bool;
  Next : iter_t -> iter_t * (string + TimePositionTransfer)
}.

(** ** The motion facade *)

(** A synchronous call on the telescope or on its ACU. *)
Inductive FacadeCall : Type :=
| CallMoveTo (az el : float)
| CallModeSet (mode : string).

(** One element of [Points]: a Go [[5]float64]. *)
Definition array5 : Type := float * float * float * float * float.

Definition at0 (p : array5) : float :=
  let '(t, _, _, _, _) := p in t.

(** What [commands.go] uses and does not define: the types [time.Time] and
    [context.Context], the mode constants of package datasets, the
    conversion of a float64 to a [time.Duration], the pattern constructors
    and [Unixtime2Time] of the other files of package main, and the answer
    of the device to a facade call, which may depend on the calls made
    before. *)
Class Collaborators : Type := {
  Time : Type;
  context : Type;
  AzimuthModePreset : Z;
  ElevationModePreset : Z;
  Duration : float -> Z;
  Unixtime2Time : float -> Time;
  NewAzimuthScanPattern :
    Time -> Z -> float -> float * float -> float -> Z -> ScanPattern;
  NewTrackScanPattern :
    Time -> Time -> float -> float -> string -> ScanPattern * option error;
  NewPathScanPattern : string -> list array5 -> ScanPattern;
  reply : list FacadeCall -> FacadeCall -> option error
}.

(** The telescope as [Start] sees it: the facade calls made so far, and
    the uploads started with [go], which run detached and whose errors are
    only logged. *)
Record Telescope {E : Collaborators} : Type := {
  calls : list FacadeCall;
  uploads : list (context * ScanPattern)
}.

Definition facade {E : Collaborators} (c : FacadeCall) : State Telescope (option error) :=
  fun tel =>
    (reply (calls tel) c, {| calls := calls tel ++ [c]; uploads := uploads tel |}).

(** [tel.MoveTo(az, el)] *)
Definition MoveTo {E : Collaborators} (az el : float) : State Telescope (option error) :=
  facade (CallMoveTo az el).

(** [tel.acu.ModeSet(mode)] *)
Definition ModeSet {E : Collaborators} (mode : string) : State Telescope (option error) :=
  facade (CallModeSet mode).

(** [go func() { err := tel.UploadScanPattern(ctx, pattern); ... }()] *)
Definition go_UploadScanPattern {E : Collaborators} (ctx : context) (pattern : ScanPattern)
  : State Telescope unit :=
  fun tel => (tt, {| calls := calls tel; uploads := uploads tel ++ [(ctx, pattern)] |}).

(** ** Commands *)

(** A statement that returns its error, or falls through to the rest. *)
Definition orReturn {S : Type} (m k : State S (option error)) : State S (option error) :=
  err <- m ;;
  match err with
  | Some e => ret (Some e)
  | None => k
  end.

Infix ">>?" := orReturn (at level 62, right associativity).

Class Command {E : Collaborators} (C : Type) : Type := {
  Check : C -> State Log (option error);
  Start : context -> C -> State Telescope (option IsDoneFunc * option error)
}.

Module moveToCmd.

Record t : Type := {
  Azimuth : float;
  Elevation : float
}.

Definition Check (cmd : t) : State Log (option error) :=
  checkAzEl (Azimuth cmd) (Elevation cmd) 0 0.

Definition isDone {E : Collaborators} : IsDoneFunc :=
  fun rec =>
    let done :=
      (AzimuthMode rec =? AzimuthModePreset)%Z &&
      (ElevationMode rec =? ElevationModePreset)%Z &&
      (abs (AzimuthCurrentPosition rec - AzimuthCommandedPosition rec) <? positionTol) &&
      (abs (ElevationCurrentPosition rec - ElevationCommandedPosition rec) <? positionTol) &&
      (abs (AzimuthCurrentVelocity rec) <? speedTol) &&
      (abs (ElevationCurrentVelocity rec) <? speedTol) in
    (done, None).

Definition Start {E : Collaborators} (ctx : context) (cmd : t)
  : State Telescope (option IsDoneFunc * option error) :=
  err <- MoveTo (Azimuth cmd) (Elevation cmd) ;;
  ret (Some isDone, err).

End moveToCmd.

Module pattern.

Definition isDone : IsDoneFunc :=
  fun rec =>
    let done :=
      (QtyOfFreeProgramTrackStackPositions rec =? maxFreeProgramTrackStack - 1)%Z &&
      (abs (AzimuthCurrentVelocity rec) <? speedTol) &&
      (abs (ElevationCurrentVelocity rec) <? speedTol) in
    (done, None).

End pattern.

Definition startPattern {E : Collaborators} (ctx : context) (pattern : ScanPattern)
  : State Telescope (option IsDoneFunc * option error) :=
  go_UploadScanPattern ctx pattern ;;;
  err <- ModeSet "ProgramTrack" ;;
  ret (Some pattern.isDone, err).

Module azScanCmd.

Record t {E : Collaborators} : Type := {
  AzimuthRange : float * float;
  Elevation : float;
  NumScans : Z;
  StartTime : Time;
  TurnaroundTime : float;
  Speed : float
}.

Definition Check {E : Collaborators} (cmd : t) : State Log (option error) :=
  ret None.

(** [time.Nanosecond] *)
Definition Nanosecond : Z := 1.

Definition Start {E : Collaborators} (ctx : context) (cmd : t)
  : State Telescope (option IsDoneFunc * option error) :=
  let pattern :=
    NewAzimuthScanPattern (StartTime cmd) (NumScans cmd) (Elevation cmd)
      (AzimuthRange cmd) (Speed cmd)
      (Duration (TurnaroundTime cmd * 1e9) * Nanosecond)%Z in
  startPattern ctx pattern.

End azScanCmd.

Module trackCmd.

Record t : Type := {
  StartTime : float;
  StopTime : float;
  RA : float;
  Dec : float;
  Coordsys : string
}.

Definition Check (cmd : t) : State Log (option error) :=
  (if String.eqb (Coordsys cmd) "Horizon" then ret None
   else if String.eqb (Coordsys cmd) "ICRS" then ret None
   else ret (Some (errBadCoordsys (Coordsys cmd)))) >>?
  (if StopTime cmd <? StartTime cmd
   then ret (Some (errBadTimes (StartTime cmd) (StopTime cmd)))
   else ret None).

Definition Start {E : Collaborators} (ctx : context) (cmd : t)
  : State Telescope (option IsDoneFunc * option error) :=
  let (pattern, err) :=
    NewTrackScanPattern (Unixtime2Time (StartTime cmd)) (Unixtime2Time (StopTime cmd))
      (RA cmd) (Dec cmd) (Coordsys cmd) in
  match err with
  | Some e => ret (None, Some e)
  | None => startPattern ctx pattern
  end.

End trackCmd.

Module pathCmd.

Record t : Type := {
  Coordsys : string;
  Points : list array5
}.

Definition zero5 : array5 := (0, 0, 0, 0, 0).

(** [cmd.Points[i]] *)
Definition index (points : list array5) (i : nat) : array5 := nth i points zero5.

(** The loop over the times, entered at index [i] with [n] rounds to go. *)
Fixpoint timesLoop (points : list array5) (i n : nat) : option error :=
  match n with
  | O => None
  | S n' =>
    if at0 (index points i) - at0 (index points (i - 1)) <? 0.05
    then Some errSpacing
    else timesLoop points (S i) n'
  end.

(** The loop over the pattern, entered at point [i] with [n] rounds to go. *)
Fixpoint pointsLoop (pattern : ScanPattern) (iter : iter_t pattern) (i : Z) (n : nat)
  : State Log (option error) :=
  match n with
  | O => ret None
  | S n' =>
    if Done pattern iter then ret None
    else
      let (iter', r) := Next pattern iter in
      match r with
      | inl msg => ret (Some (errExternal msg))
      | inr pt =>
        err <- checkAzEl (AzPosition pt) (ElPosition pt) (AzVelocity pt) (ElVelocity pt) ;;
        match err with
        | Some e => ret (Some (errPoint i e))
        | None => pointsLoop pattern iter' (i + 1) n'
        end
      end
  end.

Definition Check {E : Collaborators} (cmd : t) : State Log (option error) :=
  (if String.eqb (Coordsys cmd) "Horizon" then ret None
   else if String.eqb (Coordsys cmd) "ICRS" then ret None
   else ret (Some (errBadCoordsys (Coordsys cmd)))) >>?
  (if (List.length (Points cmd) =? 0)%nat then ret (Some errNoPoints) else ret None) >>?
  ret (timesLoop (Points cmd) 1 (List.length (Points cmd) - 1)) >>?
  (let pattern := NewPathScanPattern (Coordsys cmd) (Points cmd) in
   let iter := Iterator pattern in
   pointsLoop pattern iter 0 100).

Definition Start {E : Collaborators} (ctx : context) (cmd : t)
  : State Telescope (option IsDoneFunc * option error) :=
  let pattern := NewPathScanPattern (Coordsys cmd) (Points cmd) in
  startPattern ctx pattern.

End pathCmd.

#[export] Instance moveToCmd_Command {E : Collaborators} : Command moveToCmd.t :=
  {| Check := moveToCmd.Check; Start := moveToCmd.Start |}.

#[export] Instance azScanCmd_Command {E : Collaborators} : Command azScanCmd.t :=
  {| Check := azScanCmd.Check; Start := azScanCmd.Start |}.

#[export] Instance trackCmd_Command {E : Collaborators} : Command trackCmd.t :=
  {| Check := trackCmd.Check; Start := trackCmd.Start |}.

#[export] Instance pathCmd_Command {E : Collaborators} : Command pathCmd.t :=
  {| Check := pathCmd.Check; Start := pathCmd.Start |}.

(** The four implementations of the [Command] interface. *)
Inductive command {E : Collaborators} : Type :=
| Point (cmd : moveToCmd.t)
| AzimuthScan (cmd : azScanCmd.t)
| Track (cmd : trackCmd.t)
| Path (cmd : pathCmd.t).

#[export] Instance command_Command {E : Collaborators} : Command command :=
  {| Check := fun c =>
       match c with
       | Point cmd => Check cmd
       | AzimuthScan cmd => Check cmd
       | Track cmd => Check cmd
       | Path cmd => Check cmd
       end;
     Start := fun ctx c =>
       match c with
       | Point cmd => Start ctx cmd
       | AzimuthScan cmd => Start ctx cmd
       | Track cmd => Start ctx cmd
       | Path cmd => Start ctx cmd
       end |}.

(** ** What the properties speak of *)

(** What the validator returns, the log left out. *)
Definition validator (pt : TimePositionTransfer) : option error :=
  fst (checkAzEl (AzPosition pt) (ElPosition pt) (AzVelocity pt) (ElVelocity pt) []).

(** The results of the first [n] calls of [Next] on an iterator, up to
    the call at which [Done] holds. *)
Fixpoint produced (pattern : ScanPattern) (iter : iter_t pattern) (n : nat)
  : list (string + TimePositionTransfer) :=
  match n with
  | O => []
  | S n' =>
    if Done pattern iter then []
    else let (iter', r) := Next pattern iter in r :: produced pattern iter' n'
  end.

(** The first failure in a list of produced points, counted from [i]. *)
Fixpoint firstFailure (tr : list (string + TimePositionTransfer)) (i : Z) : option error :=
  match tr with
  | [] => None
  | inl msg :: _ => Some (errExternal msg)
  | inr pt :: rest =>
    match validator pt with
    | Some e => Some (errPoint i e)
    | None => firstFailure rest (i + 1)
    end
  end.

(** The float64 difference of the times of points [j] and [j - 1]. *)
Definition gap (points : list array5) (j : nat) : float :=
  (at0 (pathCmd.index points j) - at0 (pathCmd.index points (j - 1)))%float.

Definition recognised (coordsys : string) : bool :=
  String.eqb coordsys "Horizon" || String.eqb coordsys "ICRS".

(** The trajectory that Start of the Track command asks for. *)
Definition generated {E : Collaborators} (cmd : trackCmd.t) : ScanPattern * option error :=
  NewTrackScanPattern (Unixtime2Time (trackCmd.StartTime cmd))
    (Unixtime2Time (trackCmd.StopTime cmd))
    (trackCmd.RA cmd) (trackCmd.Dec cmd) (trackCmd.Coordsys cmd).

(** The lines that a Check returning [r] has written to the log: the
    error of the validator, bare when the validator was called directly and
    unwrapped when it is returned as the error of a point. *)
Definition logged (r : option error) : list error :=
  match r with
  | Some (errOutOfRange what v lo hi) => [errOutOfRange what v lo hi]
  | Some (errPoint _ e) => [e]
  | _ => []
  end.

(** The argument passes the range test of the validator: it is NaN or a
    number of [[lo, hi]]. *)
Definition passes_range (lo hi : Q) (x : float) : Prop :=
  is_nan_value x \/ within lo hi x.

(** The argument passes the speed test of the validator: it is NaN or a
    number of absolute value at most [b]. *)
Definition passes_speed (b : Q) (x : float) : Prop :=
  is_nan_value x \/ abs_le b x.

(** ** A test bench *)

(** Concrete collaborators to run the commands on: patterns that replay a
    list of points, a path pattern that passes horizon coordinates through,
    a trajectory generator that knows the two coordinate systems, and a
    device that refuses every call. *)
Module Bench.

Definition replay (pts : list TimePositionTransfer) : ScanPattern :=
  {| iter_t := list TimePositionTransfer;
     Iterator := pts;
     Done := fun it => match it with [] => true | _ :: _ => false end;
     Next := fun it =>
       match it with
       | [] => ([], inl "iterator exhausted"%string)
       | pt :: rest => (rest, inr pt)
       end |}.

Definition passThrough (p : array5) : TimePositionTransfer :=
  let '(_, az, el, vaz, vel) := p in
  {| AzPosition := az; ElPosition := el; AzVelocity := vaz; ElVelocity := vel |}.

Definition generate (coordsys : string) : ScanPattern * option error :=
  if String.eqb coordsys "Horizon" then (replay [], None)
  else if String.eqb coordsys "ICRS" then (replay [], None)
  else (replay [], Some (errExternal "cannot generate trajectory")).

Definition refused : error := errExternal "connection refused".

#[export] Instance collaborators : Collaborators :=
  {| Time := float;
     context := unit;
     AzimuthModePreset := 1;
     ElevationModePreset := 1;
     Duration := fun _ => 0%Z;
     Unixtime2Time := fun t => t;
     NewAzimuthScanPattern := fun _ _ _ _ _ _ => replay [];
     NewTrackScanPattern := fun _ _ _ _ coordsys => generate coordsys;
     NewPathScanPattern := fun _ points => replay (map passThrough points);
     reply := fun _ _ => Some refused |}.

(** A telescope on which nothing has been done yet. *)
Definition idle : Telescope := {| calls := []; uploads := [] |}.

(** [n] points one second apart from time [t], at rest at azimuth 10 and
    elevation 20. *)
Fixpoint ramp (t : float) (n : nat) : list array5 :=
  match n with
  | O => []
  | S n' => (t, 10, 20, 0, 0)%float :: ramp (t + 1)%float n'
  end.

(** Two paths of 101 points that differ in the last point only, which is
    within the envelope in the first path and far outside it in the
    second. *)
Definition longPath : pathCmd.t :=
  {| pathCmd.Coordsys := "Horizon";
     pathCmd.Points := ramp 0 100 ++ [(100, 10, 20, 0, 0)%float] |}.

Definition longPathOutside : pathCmd.t :=
  {| pathCmd.Coordsys := "Horizon";
     pathCmd.Points := ramp 0 100 ++ [(100, 1000, -50, 99, 99)%float] |}.

End Bench.

(** A second bench, whose path pattern never ends and loses its source
    after two points. *)
Module FaultyBench.

Definition faulty : ScanPattern :=
  {| iter_t := nat;
     Iterator := 0%nat;
     Done := fun _ => false;
     Next := fun n =>
       (S n,
        if (n <? 2)%nat
        then inr {| AzPosition := 10; ElPosition := 20; AzVelocity := 0; ElVelocity := 0 |}
        else inl "ephemeris lost"%string) |}.

#[export] Instance collaborators : Collaborators :=
  {| Time := float;
     context := unit;
     AzimuthModePreset := 1;
     ElevationModePreset := 1;
     Duration := fun _ => 0%Z;
     Unixtime2Time := fun t => t;
     NewAzimuthScanPattern := fun _ _ _ _ _ _ => faulty;
     NewTrackScanPattern := fun _ _ _ _ _ => (faulty, None);
     NewPathScanPattern := fun _ _ => faulty;
     reply := fun _ _ => None |}.

End FaultyBench.

(** * Properties *)

(** ** Binary64 numbers and their values *)

Section Binary64.

Local Open Scope Z_scope.

(** *** Canonical mantissas *)

Lemma digits2_pos_bounds (m : positive) :
  2 ^ (Zpos (digits2_pos m) - 1) <= Zpos m < 2 ^ Zpos (digits2_pos m).
Proof.
  induction m as [p IH | p IH | ]; cbn [digits2_pos].
  - rewrite Pos2Z.inj_succ.
    replace (Z.succ (Zpos (digits2_pos p)) - 1) with (Z.succ (Zpos (digits2_pos p) - 1)) by lia.
    rewrite !Z.pow_succ_r by lia. lia.
  - rewrite Pos2Z.inj_succ.
    replace (Z.succ (Zpos (digits2_pos p)) - 1) with (Z.succ (Zpos (digits2_pos p) - 1)) by lia.
    rewrite !Z.pow_succ_r by lia. lia.
  - cbn. lia.
Qed.

(** A finite binary64 number has an exponent in [[-1074, 971]] and a
    mantissa of at most 53 bits, of exactly 53 bits above the least
    exponent. *)
Lemma bounded_inv (m : positive) (e : Z) :
  bounded prec emax m e = true ->
  -1074 <= e <= 971 /\ Zpos m < 2 ^ 53 /\ (-1074 < e -> 2 ^ 52 <= Zpos m).
Proof.
  unfold bounded, canonical_mantissa, fexp, SpecFloat.emin, prec, emax.
  intros H. apply andb_true_iff in H. destruct H as [Hc He].
  apply Z.eqb_eq in Hc. apply Z.leb_le in He.
  pose proof (digits2_pos_bounds m) as [Hlo Hhi].
  assert (Hd : Zpos (digits2_pos m) <= 53) by lia.
  repeat split; try lia.
  - apply Z.lt_le_trans with (1 := Hhi).
    apply Z.pow_le_mono_r; lia.
  - intros Hgt.
    assert (Hd53 : Zpos (digits2_pos m) = 53) by lia.
    rewrite Hd53 in Hlo. exact Hlo.
Qed.

Lemma mag_lt_exp (m1 m2 : positive) (e1 e2 : Z) :
  bounded prec emax m1 e1 = true ->
  bounded prec emax m2 e2 = true ->
  e1 < e2 ->
  Zpos m1 * 2 ^ (e1 + 1074) < 2 ^ 52 * 2 ^ (e2 + 1074) <= Zpos m2 * 2 ^ (e2 + 1074).
Proof.
  intros H1 H2 Hlt.
  apply bounded_inv in H1. apply bounded_inv in H2.
  destruct H1 as (Hr1 & Hm1 & _). destruct H2 as (Hr2 & _ & Hm2).
  assert (Hp1 : 0 < 2 ^ (e1 + 1074)) by (apply Z.pow_pos_nonneg; lia).
  assert (Hp2 : 0 < 2 ^ (e2 + 1074)) by (apply Z.pow_pos_nonneg; lia).
  assert (Hstep : 2 * 2 ^ (e1 + 1074) <= 2 ^ (e2 + 1074)).
  { rewrite <- Z.pow_succ_r by lia. apply Z.pow_le_mono_r; lia. }
  specialize (Hm2 ltac:(lia)).
  change (2 ^ 53) with (2 ^ 52 * 2) in Hm1.
  remember (2 ^ 52) as B eqn:HB.
  assert (HBpos : 0 < B) by (subst B; lia).
  split; [ | apply Z.mul_le_mono_nonneg_r; lia ].
  apply Z.lt_le_trans with (B * (2 * 2 ^ (e1 + 1074))).
  - nia.
  - apply Z.mul_le_mono_nonneg_l; lia.
Qed.

Lemma mag_compare (m1 m2 : positive) (e1 e2 : Z) :
  bounded prec emax m1 e1 = true ->
  bounded prec emax m2 e2 = true ->
  match e1 ?= e2 with
  | Eq => Pos.compare_cont Eq m1 m2
  | Lt => Lt
  | Gt => Gt
  end = (Zpos m1 * 2 ^ (e1 + 1074) ?= Zpos m2 * 2 ^ (e2 + 1074)).
Proof.
  intros H1 H2. symmetry.
  destruct (Z.compare_spec e1 e2) as [Heq | Hlt | Hgt].
  - subst e2. apply bounded_inv in H1. destruct H1 as (Hr & _ & _).
    assert (Hp : 0 < 2 ^ (e1 + 1074)) by (apply Z.pow_pos_nonneg; lia).
    change (Pos.compare_cont Eq m1 m2) with (Zpos m1 ?= Zpos m2).
    destruct (Z.compare_spec (Zpos m1) (Zpos m2)) as [E | L | G].
    + rewrite E. apply Z.compare_refl.
    + apply Z.compare_lt_iff. apply Z.mul_lt_mono_pos_r; assumption.
    + apply Z.compare_gt_iff. apply Z.mul_lt_mono_pos_r; assumption.
  - apply Z.compare_lt_iff.
    pose proof (mag_lt_exp m1 m2 e1 e2 H1 H2 Hlt). lia.
  - apply Z.compare_gt_iff.
    pose proof (mag_lt_exp m2 m1 e2 e1 H2 H1 Hgt). lia.
Qed.

(** *** Comparison of binary64 numbers is comparison of their values *)

Lemma ulp0_pos : (0 < ulp0)%Q.
Proof. unfold ulp0. apply Qpower_0_lt. reflexivity. Qed.

Lemma SF2E_scaled (x : spec_float) (z : Z) :
  valid_binary x = true ->
  SFscaled x = Some z ->
  exists q, SF2E x = EFin q /\ (q == inject_Z z * ulp0)%Q.
Proof.
  intros Hv Hs. destruct x as [s | s | | s m e]; try discriminate.
  - injection Hs as <-. exists 0%Q. split; [reflexivity | ring].
  - injection Hs as <-. cbn [SF2E]. eexists. split; [reflexivity | ].
    cbn [valid_binary] in Hv. apply bounded_inv in Hv. destruct Hv as (Hr & _ & _).
    unfold scaled, ulp0.
    replace (cond_Zopp s (Zpos m * 2 ^ (e + 1074)))
      with (cond_Zopp s (Zpos m) * 2 ^ (e + 1074)) by (destruct s; cbn [cond_Zopp]; lia).
    rewrite inject_Z_mult, Zpower_Qpower by lia.
    rewrite <- Qmult_assoc, <- Qpower_plus by discriminate.
    replace (e + 1074 + -1074) with e by lia. reflexivity.
Qed.

Lemma scaled_sign (s : bool) (m : positive) (e : Z) :
  -1074 <= e -> if s then scaled s m e < 0 else 0 < scaled s m e.
Proof.
  intros He. unfold scaled.
  assert (Hp : 0 < 2 ^ (e + 1074)) by (apply Z.pow_pos_nonneg; lia).
  destruct s; cbn [cond_Zopp]; nia.
Qed.

Lemma SFcompare_scaled (x y : spec_float) (a b : Z) :
  valid_binary x = true -> valid_binary y = true ->
  SFscaled x = Some a -> SFscaled y = Some b ->
  SFcompare x y = Some (a ?= b).
Proof.
  intros Hx Hy Ha Hb.
  destruct x as [sx | sx | | sx mx ex]; try discriminate;
    destruct y as [sy | sy | | sy my ey]; try discriminate;
    injection Ha as <-; injection Hb as <-; cbn [SFcompare valid_binary] in *.
  - reflexivity.
  - pose proof (bounded_inv _ _ Hy) as (Hr & _ & _).
    pose proof (scaled_sign sy my ey ltac:(lia)) as Hs.
    f_equal. symmetry. destruct sy.
    + apply Z.compare_gt_iff. exact Hs.
    + apply Z.compare_lt_iff. exact Hs.
  - pose proof (bounded_inv _ _ Hx) as (Hr & _ & _).
    pose proof (scaled_sign sx mx ex ltac:(lia)) as Hs.
    f_equal. symmetry. destruct sx.
    + apply Z.compare_lt_iff. exact Hs.
    + apply Z.compare_gt_iff. exact Hs.
  - pose proof (bounded_inv _ _ Hx) as (Hrx & _ & _).
    pose proof (bounded_inv _ _ Hy) as (Hry & _ & _).
    pose proof (scaled_sign sx mx ex ltac:(lia)) as Hsx.
    pose proof (scaled_sign sy my ey ltac:(lia)) as Hsy.
    f_equal. destruct sx, sy.
    + transitivity (CompOpp (match ex ?= ey with
                             | Eq => Pos.compare_cont Eq mx my
                             | Lt => Lt
                             | Gt => Gt
                             end)).
      { destruct (ex ?= ey); reflexivity. }
      rewrite (mag_compare mx my ex ey Hx Hy). unfold scaled. cbn [cond_Zopp].
      rewrite Z.compare_opp. symmetry. apply Z.compare_antisym.
    + symmetry. apply Z.compare_lt_iff. lia.
    + symmetry. apply Z.compare_gt_iff. lia.
    + rewrite (mag_compare mx my ex ey Hx Hy). reflexivity.
Qed.

(** [SFltb] decides the strict order of the values. *)
Lemma SFltb_elt (x y : spec_float) :
  valid_binary x = true -> valid_binary y = true ->
  SFltb x y = true <-> elt (SF2E x) (SF2E y).
Proof.
  intros Hx Hy. unfold SFltb.
  destruct (SFscaled x) as [a | ] eqn:Ha; destruct (SFscaled y) as [b | ] eqn:Hb.
  - rewrite (SFcompare_scaled x y a b Hx Hy Ha Hb).
    destruct (SF2E_scaled x a Hx Ha) as (p & -> & Hp).
    destruct (SF2E_scaled y b Hy Hb) as (q & -> & Hq).
    cbn [elt]. rewrite Hp, Hq, (Qmult_lt_r _ _ _ ulp0_pos), <- Zlt_Qlt.
    destruct (Z.compare_spec a b); split; intros; try lia; discriminate.
  - destruct (SF2E_scaled x a Hx Ha) as (p & -> & _).
    destruct x as [sx | sx | | sx mx ex]; try discriminate;
      destruct y as [sy | [ | ] | | sy my ey]; try discriminate;
      cbn; split; intros; try discriminate; tauto.
  - destruct (SF2E_scaled y b Hy Hb) as (q & -> & _).
    destruct y as [sy | sy | | sy my ey]; try discriminate;
      destruct x as [sx | [ | ] | | sx mx ex]; try discriminate;
      cbn; split; intros; try discriminate; tauto.
  - destruct x as [sx | [ | ] | | sx mx ex]; try discriminate;
      destruct y as [sy | [ | ] | | sy my ey]; try discriminate;
      cbn; split; intros; try discriminate; tauto.
Qed.

(** Go's [x < y] on float64 holds exactly when both are numbers (or
    infinities) and the value of [x] is below the value of [y]. *)
Lemma ltb_elt (x y : float) :
  PrimFloat.ltb x y = true <-> elt (value x) (value y).
Proof.
  rewrite ltb_spec. apply SFltb_elt; apply Prim2SF_valid.
Qed.

Lemma Qnum_pow2_pos (e : Z) : 0 < Qnum (2 ^ e)%Q.
Proof.
  pose proof (Qpower_0_lt 2 e ltac:(reflexivity)) as H.
  unfold Qlt in H. cbn [Qnum Qden] in H. lia.
Qed.

Lemma value_abs (x : float) : value (abs x) = eabs (value x).
Proof.
  unfold value. rewrite abs_spec.
  destruct (Prim2SF x) as [s | [ | ] | | s m e]; try reflexivity.
  cbn [SFabs SF2E eabs cond_Zopp]. f_equal.
  pose proof (Qnum_pow2_pos e) as Hp.
  unfold Qabs, Qmult, inject_Z. cbn [Qnum Qden].
  destruct (2 ^ e)%Q as [n d]. cbn [Qnum Qden] in *.
  f_equal. destruct s; cbn [cond_Zopp]; lia.
Qed.

(** *** Comparison with a constant *)

Lemma elt_EFin_r (a : ereal) (p q : Q) :
  (p == q)%Q -> elt a (EFin p) <-> elt a (EFin q).
Proof.
  intros E. destruct a; cbn [elt]; try tauto. rewrite E. tauto.
Qed.

Lemma elt_EFin_l (a : ereal) (p q : Q) :
  (p == q)%Q -> elt (EFin p) a <-> elt (EFin q) a.
Proof.
  intros E. destruct a; cbn [elt]; try tauto. rewrite E. tauto.
Qed.

Lemma ltb_const_r (x c : float) (q : Q) :
  denotes c q -> PrimFloat.ltb x c = true <-> elt (value x) (EFin q).
Proof.
  intros (q' & Hc & E). rewrite ltb_elt, Hc. apply elt_EFin_r. exact E.
Qed.

Lemma ltb_const_l (x c : float) (q : Q) :
  denotes c q -> PrimFloat.ltb c x = true <-> elt (EFin q) (value x).
Proof.
  intros (q' & Hc & E). rewrite ltb_elt, Hc. apply elt_EFin_l. exact E.
Qed.

(** A decimal constant [r] of the source that is no binary64 number is
    converted to a neighbour [T]: when [r] lies between the predecessor of
    [T] and [T], no binary64 number separates [r] from [T], and comparing
    with [T] is comparing with [r]. *)
Lemma ltb_rounded_const (x T : float) (mT : positive) (eT : Z) (r : Q) :
  Prim2SF T = S754_finite false mT eT ->
  2 ^ 52 < Zpos mT ->
  (inject_Z (Zpos mT - 1) * 2 ^ eT < r)%Q ->
  (r <= inject_Z (Zpos mT) * 2 ^ eT)%Q ->
  PrimFloat.ltb x T = true <-> elt (value x) (EFin r).
Proof.
  intros HT Hm Hlo Hhi.
  pose proof (Prim2SF_valid T) as HvT. rewrite HT in HvT.
  pose proof (Prim2SF_valid x) as Hvx.
  assert (HsT : SFscaled (S754_finite false mT eT) = Some (Zpos mT * 2 ^ (eT + 1074)))
    by reflexivity.
  pose proof (bounded_inv _ _ HvT) as (HrT & _ & _).
  assert (HpT : 0 < 2 ^ (eT + 1074)) by (apply Z.pow_pos_nonneg; lia).
  split.
  - intros Hlt. rewrite ltb_spec, HT in Hlt. unfold value.
    destruct (SFscaled (Prim2SF x)) as [a | ] eqn:Ha.
    + destruct (SF2E_scaled _ a Hvx Ha) as (p & -> & Hp). cbn [elt].
      unfold SFltb in Hlt. rewrite (SFcompare_scaled _ _ a _ Hvx HvT Ha HsT) in Hlt.
      assert (Hab : a < Zpos mT * 2 ^ (eT + 1074)).
      { destruct (Z.compare_spec a (Zpos mT * 2 ^ (eT + 1074))); try discriminate. assumption. }
      assert (Hpred : a <= (Zpos mT - 1) * 2 ^ (eT + 1074)).
      { destruct (Prim2SF x) as [sx | sx | | sx mx ex]; try discriminate.
        - injection Ha as <-. nia.
        - injection Ha as <-. cbn [valid_binary] in Hvx.
          pose proof (bounded_inv _ _ Hvx) as (Hrx & _ & _).
          pose proof (scaled_sign sx mx ex ltac:(lia)) as Hs.
          destruct sx; [nia | ].
          unfold scaled in *. cbn [cond_Zopp] in *.
          destruct (Z.lt_trichotomy ex eT) as [L | [E | G]].
          + pose proof (mag_lt_exp mx mT ex eT Hvx HvT L) as [H1 _].
            apply Z.lt_le_incl, Z.lt_le_trans with (1 := H1).
            apply Z.mul_le_mono_nonneg_r; lia.
          + subst ex.
            assert (Zpos mx < Zpos mT) by (apply Z.mul_lt_mono_pos_r with (2 ^ (eT + 1074)); assumption).
            apply Z.mul_le_mono_nonneg_r; lia.
          + pose proof (mag_lt_exp mT mx eT ex HvT Hvx G). lia. }
      apply Qle_lt_trans with (2 := Hlo). rewrite Hp.
      apply Qle_trans with (inject_Z ((Zpos mT - 1) * 2 ^ (eT + 1074)) * ulp0)%Q.
      * apply Qmult_le_compat_r; [ | apply Qlt_le_weak, ulp0_pos ].
        rewrite <- Zle_Qle. exact Hpred.
      * unfold ulp0. rewrite inject_Z_mult, Zpower_Qpower by lia.
        rewrite <- Qmult_assoc, <- Qpower_plus by discriminate.
        replace (eT + 1074 + -1074) with eT by lia. apply Qle_refl.
    + destruct (Prim2SF x) as [sx | [ | ] | | sx mx ex]; try discriminate; exact I.
  - intros Hx. apply ltb_elt. unfold value at 2. rewrite HT. cbn [SF2E cond_Zopp].
    destruct (value x); cbn [elt] in *; try tauto.
    apply Qlt_le_trans with (1 := Hx). exact Hhi.
Qed.

End Binary64.

(** ** The constants denote the numbers of the specification *)

Local Open Scope Q_scope.

Ltac by_evaluation :=
  eexists; split; [ vm_compute; reflexivity | vm_compute; reflexivity ].

Lemma azimuthMin_denotes : denotes azimuthMin (-180).
Proof. by_evaluation. Qed.

Lemma azimuthMax_denotes : denotes azimuthMax 360.
Proof. by_evaluation. Qed.

Lemma elevationMin_denotes : denotes elevationMin 0.
Proof. by_evaluation. Qed.

Lemma elevationMax_denotes : denotes elevationMax 180.
Proof. by_evaluation. Qed.

Lemma azimuthSpeedMax_denotes : denotes azimuthSpeedMax 3.
Proof. by_evaluation. Qed.

Lemma elevationSpeedMax_denotes : denotes elevationSpeedMax (3 # 2).
Proof. by_evaluation. Qed.

Lemma not_true_iff_false' (b : bool) (P : Prop) :
  (b = true <-> P) -> (b = false <-> ~ P).
Proof.
  intros H. rewrite <- H. destruct b; split; intros; try discriminate; try reflexivity.
  - exfalso. auto.
Qed.

(** The range test of the validator lets through the numbers of the
    range, and NaN. *)
Lemma range_test_false (x lo hi : float) (ql qh : Q) :
  denotes lo ql -> denotes hi qh ->
  ((x <? lo) || (x >? hi))%float = false <-> is_nan_value x \/ within ql qh x.
Proof.
  intros Hlo Hhi. rewrite orb_false_iff.
  rewrite (not_true_iff_false' _ _ (ltb_const_r x lo ql Hlo)).
  unfold gtb. rewrite (not_true_iff_false' _ _ (ltb_const_l x hi qh Hhi)).
  unfold is_nan_value, within. destruct (value x) as [ | | q | ]; cbn [elt].
  - split; [ intros _; left; reflexivity | intros _; split; intros [] ].
  - split; [ intros [H _]; exfalso; apply H; exact I | intros [H | []]; discriminate ].
  - split.
    + intros [H1 H2]. right. split; apply Qnot_lt_le; assumption.
    + intros [H | [H1 H2]]; [ discriminate | ].
      split; apply Qle_not_lt; assumption.
  - split; [ intros [_ H]; exfalso; apply H; exact I | intros [H | []]; discriminate ].
Qed.

(** The speed test of the validator lets through the numbers of absolute
    value at most the bound, and NaN. *)
Lemma speed_test_false (v hi : float) (qh : Q) :
  denotes hi qh ->
  (abs v >? hi)%float = false <-> is_nan_value v \/ abs_le qh v.
Proof.
  intros Hhi. unfold gtb.
  rewrite (not_true_iff_false' _ _ (ltb_const_l (abs v) hi qh Hhi)).
  rewrite value_abs. unfold is_nan_value, abs_le.
  destruct (value v) as [ | | q | ]; cbn [eabs elt].
  - split; [ intros _; left; reflexivity | intros _ [] ].
  - split; [ intros H; exfalso; apply H; exact I | intros [H | []]; discriminate ].
  - split.
    + intros H. right. apply Qnot_lt_le. exact H.
    + intros [H | H]; [ discriminate | ]. apply Qle_not_lt. exact H.
  - split; [ intros H; exfalso; apply H; exact I | intros [H | []]; discriminate ].
Qed.

(** ** The kinematic validator *)

(** What the validator returns does not depend on the log. *)
Lemma checkAzEl_result (az el vaz vel : float) (l : Log) :
  fst (checkAzEl az el vaz vel l) =
  if ((az <? azimuthMin) || (az >? azimuthMax))%float then
    Some (errOutOfRange "azimuth" az azimuthMin azimuthMax)
  else if ((el <? elevationMin) || (el >? elevationMax))%float then
    Some (errOutOfRange "elevation" el elevationMin elevationMax)
  else if (abs vaz >? azimuthSpeedMax)%float then
    Some (errOutOfRange "azimuth vel" vaz (- azimuthSpeedMax)%float azimuthSpeedMax)
  else if (abs vel >? elevationSpeedMax)%float then
    Some (errOutOfRange "elevation vel" vel (- elevationSpeedMax)%float elevationSpeedMax)
  else None.
Proof.
  unfold checkAzEl.
  destruct ((az <? azimuthMin) || (az >? azimuthMax))%float; [ reflexivity | ].
  destruct ((el <? elevationMin) || (el >? elevationMax))%float; [ reflexivity | ].
  destruct (abs vaz >? azimuthSpeedMax)%float; [ reflexivity | ].
  destruct (abs vel >? elevationSpeedMax)%float; reflexivity.
Qed.

(** Every violation is also written to the log, once; a successful
    validation writes nothing. *)
Lemma checkAzEl_log (az el vaz vel : float) (l : Log) :
  snd (checkAzEl az el vaz vel l) =
  match fst (checkAzEl az el vaz vel l) with
  | Some e => (l ++ [e])%list
  | None => l
  end.
Proof.
  unfold checkAzEl.
  destruct ((az <? azimuthMin) || (az >? azimuthMax))%float; [ reflexivity | ].
  destruct ((el <? elevationMin) || (el >? elevationMax))%float; [ reflexivity | ].
  destruct (abs vaz >? azimuthSpeedMax)%float; [ reflexivity | ].
  destruct (abs vel >? elevationSpeedMax)%float; reflexivity.
Qed.

(** The validator returns nil exactly when each argument is a number
    within its bounds or is NaN. *)
Lemma checkAzEl_nil_iff (az el vaz vel : float) (l : Log) :
  fst (checkAzEl az el vaz vel l) = None <->
  (is_nan_value az \/ within (-180) 360 az) /\
  (is_nan_value el \/ within 0 180 el) /\
  (is_nan_value vaz \/ abs_le 3 vaz) /\
  (is_nan_value vel \/ abs_le (3 # 2) vel).
Proof.
  rewrite checkAzEl_result.
  rewrite <- (range_test_false az _ _ _ _ azimuthMin_denotes azimuthMax_denotes).
  rewrite <- (range_test_false el _ _ _ _ elevationMin_denotes elevationMax_denotes).
  rewrite <- (speed_test_false vaz _ _ azimuthSpeedMax_denotes).
  rewrite <- (speed_test_false vel _ _ elevationSpeedMax_denotes).
  destruct ((az <? azimuthMin) || (az >? azimuthMax))%float;
    [ split; [ discriminate | intros (H & _); discriminate ] | ].
  destruct ((el <? elevationMin) || (el >? elevationMax))%float;
    [ split; [ discriminate | intros (_ & H & _); discriminate ] | ].
  destruct (abs vaz >? azimuthSpeedMax)%float;
    [ split; [ discriminate | intros (_ & _ & H & _); discriminate ] | ].
  destruct (abs vel >? elevationSpeedMax)%float;
    [ split; [ discriminate | intros (_ & _ & _ & H); discriminate ] | ].
  tauto.
Qed.

(** An error of the validator names the first offending quantity, its
    value and the bounds it violates. *)
Lemma checkAzEl_error (az el vaz vel : float) (l : Log) (e : error) :
  fst (checkAzEl az el vaz vel l) = Some e ->
  (e = errOutOfRange "azimuth" az azimuthMin azimuthMax /\
     ~ within (-180) 360 az) \/
  (e = errOutOfRange "elevation" el elevationMin elevationMax /\
     ~ within 0 180 el) \/
  (e = errOutOfRange "azimuth vel" vaz (- azimuthSpeedMax)%float azimuthSpeedMax /\
     ~ abs_le 3 vaz) \/
  (e = errOutOfRange "elevation vel" vel (- elevationSpeedMax)%float elevationSpeedMax /\
     ~ abs_le (3 # 2) vel).
Proof.
  rewrite checkAzEl_result.
  destruct ((az <? azimuthMin) || (az >? azimuthMax))%float eqn:Haz.
  { intros [= <-]. left. split; [ reflexivity | ]. intros Hin.
    assert (F : ((az <? azimuthMin) || (az >? azimuthMax))%float = false)
      by (apply (range_test_false az _ _ _ _ azimuthMin_denotes azimuthMax_denotes); tauto).
    congruence. }
  destruct ((el <? elevationMin) || (el >? elevationMax))%float eqn:Hel.
  { intros [= <-]. right; left. split; [ reflexivity | ]. intros Hin.
    assert (F : ((el <? elevationMin) || (el >? elevationMax))%float = false)
      by (apply (range_test_false el _ _ _ _ elevationMin_denotes elevationMax_denotes); tauto).
    congruence. }
  destruct (abs vaz >? azimuthSpeedMax)%float eqn:Hvaz.
  { intros [= <-]. right; right; left. split; [ reflexivity | ]. intros Hin.
    assert (F : (abs vaz >? azimuthSpeedMax)%float = false)
      by (apply (speed_test_false vaz _ _ azimuthSpeedMax_denotes); tauto).
    congruence. }
  destruct (abs vel >? elevationSpeedMax)%float eqn:Hvel.
  { intros [= <-]. right; right; right. split; [ reflexivity | ]. intros Hin.
    assert (F : (abs vel >? elevationSpeedMax)%float = false)
      by (apply (speed_test_false vel _ _ elevationSpeedMax_denotes); tauto).
    congruence. }
  discriminate.
Qed.

(** The bounds themselves are accepted, and the binary64 neighbours just
    outside them are rejected. *)
Lemma checkAzEl_boundaries (l : Log) :
  fst (checkAzEl (-180) 0 (-3) (-1.5) l) = None /\
  fst (checkAzEl 360 180 3 1.5 l) = None /\
  fst (checkAzEl (next_down (-180)) 0 0 0 l) <> None /\
  fst (checkAzEl (next_up 360) 0 0 0 l) <> None /\
  fst (checkAzEl 0 (next_down 0) 0 0 l) <> None /\
  fst (checkAzEl 0 (next_up 180) 0 0 l) <> None /\
  fst (checkAzEl 0 0 (next_down (-3)) 0 l) <> None /\
  fst (checkAzEl 0 0 (next_up 3) 0 l) <> None /\
  fst (checkAzEl 0 0 0 (next_down (-1.5)) l) <> None /\
  fst (checkAzEl 0 0 0 (next_up 1.5) l) <> None.
Proof.
  rewrite !checkAzEl_result. vm_compute. repeat split; discriminate.
Qed.

(** C1, as the code has it: on arguments none of which is NaN the
    validator returns nil exactly for az in [-180, 360], el in [0, 180],
    |vaz| <= 3 and |vel| <= 1.5; an error it returns names a quantity that
    is outside its bounds, with its value and the bounds; the bounds
    themselves are accepted and their binary64 neighbours outside are
    rejected. *)
Theorem checkAzEl_envelope (az el vaz vel : float) (l : Log) :
  ~ is_nan_value az -> ~ is_nan_value el ->
  ~ is_nan_value vaz -> ~ is_nan_value vel ->
  (fst (checkAzEl az el vaz vel l) = None <->
   within (-180) 360 az /\ within 0 180 el /\ abs_le 3 vaz /\ abs_le (3 # 2) vel) /\
  (forall e : error,
      fst (checkAzEl az el vaz vel l) = Some e ->
      (e = errOutOfRange "azimuth" az azimuthMin azimuthMax /\
         ~ within (-180) 360 az) \/
      (e = errOutOfRange "elevation" el elevationMin elevationMax /\
         ~ within 0 180 el) \/
      (e = errOutOfRange "azimuth vel" vaz (- azimuthSpeedMax)%float azimuthSpeedMax /\
         ~ abs_le 3 vaz) \/
      (e = errOutOfRange "elevation vel" vel (- elevationSpeedMax)%float elevationSpeedMax /\
         ~ abs_le (3 # 2) vel)) /\
  (fst (checkAzEl (-180) 0 (-3) (-1.5) l) = None /\
   fst (checkAzEl 360 180 3 1.5 l) = None /\
   fst (checkAzEl (next_down (-180)) 0 0 0 l) <> None /\
   fst (checkAzEl (next_up 360) 0 0 0 l) <> None /\
   fst (checkAzEl 0 (next_down 0) 0 0 l) <> None /\
   fst (checkAzEl 0 (next_up 180) 0 0 l) <> None /\
   fst (checkAzEl 0 0 (next_down (-3)) 0 l) <> None /\
   fst (checkAzEl 0 0 (next_up 3) 0 l) <> None /\
   fst (checkAzEl 0 0 0 (next_down (-1.5)) l) <> None /\
   fst (checkAzEl 0 0 0 (next_up 1.5) l) <> None).
Proof.
  intros Haz Hel Hvaz Hvel. split; [ | split ].
  - rewrite checkAzEl_nil_iff. tauto.
  - intros e. apply checkAzEl_error.
  - apply checkAzEl_boundaries.
Qed.

Lemma checkAzEl_envelope_witness :
  fst (checkAzEl 10 20 1 (-1) []) = None <->
  within (-180) 360 10 /\ within 0 180 20 /\ abs_le 3 1 /\ abs_le (3 # 2) (-1).
Proof.
  apply (checkAzEl_envelope 10 20 1 (-1) []);
    unfold is_nan_value; vm_compute; discriminate.
Defined.

(** C1 as stated fails on NaN: a NaN azimuth is no number of [-180, 360],
    and the validator returns nil for it and writes nothing to the log;
    likewise when all four arguments are NaN. *)
Lemma checkAzEl_accepts_NaN :
  checkAzEl nan 0 0 0 [] = (None, []) /\
  ~ within (-180) 360 nan /\
  checkAzEl nan nan nan nan [] = (None, []).
Proof.
  split; [ reflexivity | ]. split; [ | reflexivity ].
  unfold within. vm_compute. exact (fun H => H).
Qed.

(** ** Completion predicates *)

(** The tolerance [1e-4] of the source is the binary64 number just above
    the real 1/10000; below it lie exactly the binary64 numbers that are
    below 1/10000. *)
Lemma ltb_tolerance (x : float) :
  (x <? 1e-4)%float = true <-> elt (value x) (EFin (1 # 10000)).
Proof.
  apply (ltb_rounded_const x 1e-4%float 7378697629483821 (-66)).
  - reflexivity.
  - reflexivity.
  - vm_compute. reflexivity.
  - vm_compute. discriminate.
Qed.

Lemma abs_ltb_tolerance (x : float) :
  (abs x <? 1e-4)%float = true <-> abs_lt (1 # 10000) x.
Proof.
  rewrite ltb_tolerance, value_abs. unfold abs_lt.
  destruct (value x); cbn [eabs elt]; tauto.
Qed.

(** C2: the predicate that the Point command's Start returns never returns
    an error, and reports done exactly when both axes are in preset mode,
    both position errors, as the float64 differences current - commanded,
    are below 1e-4 in absolute value, and both current velocities are below
    1e-4 in absolute value; it reports not done exactly when one of these
    fails. *)
Theorem moveToCmd_Start_isDone {E : Collaborators} (ctx : context) (cmd : moveToCmd.t)
    (tel : Telescope) (rec : StatusGeneral8100) :
  let conditions :=
    AzimuthMode rec = AzimuthModePreset /\
    ElevationMode rec = ElevationModePreset /\
    abs_lt (1 # 10000) (AzimuthCurrentPosition rec - AzimuthCommandedPosition rec)%float /\
    abs_lt (1 # 10000) (ElevationCurrentPosition rec - ElevationCommandedPosition rec)%float /\
    abs_lt (1 # 10000) (AzimuthCurrentVelocity rec) /\
    abs_lt (1 # 10000) (ElevationCurrentVelocity rec) in
  exists isDone : IsDoneFunc,
    fst (fst (moveToCmd.Start ctx cmd tel)) = Some isDone /\
    snd (isDone rec) = None /\
    (fst (isDone rec) = true <-> conditions) /\
    (fst (isDone rec) = false <-> ~ conditions).
Proof.
  intros conditions. exists moveToCmd.isDone.
  assert (Hiff : fst (moveToCmd.isDone rec) = true <-> conditions).
  { unfold conditions, moveToCmd.isDone, positionTol, speedTol. cbn [fst].
    rewrite !andb_true_iff, !Z.eqb_eq, !abs_ltb_tolerance. tauto. }
  split; [ reflexivity | ]. split; [ reflexivity | ]. split; [ exact Hiff | ].
  rewrite <- Hiff. destruct (fst (moveToCmd.isDone rec)); split; intros; try discriminate;
    try reflexivity.
  exfalso; auto.
Qed.

(** C3: the predicate that the shared pattern-start procedure returns, and
    so the one that the AzimuthScan, Track and Path commands return, never
    returns an error and reports done exactly when the free stack count is
    9999 and both current velocities are below 1e-4 in absolute value; with
    a count of 9998 or of 10000 it reports not done. *)
Theorem startPattern_isDone {E : Collaborators} (ctx : context) (pattern : ScanPattern)
    (tel : Telescope) (rec : StatusGeneral8100) :
  exists isDone : IsDoneFunc,
    fst (fst (startPattern ctx pattern tel)) = Some isDone /\
    (forall (cmd : azScanCmd.t) (p : IsDoneFunc),
        fst (fst (Start ctx cmd tel)) = Some p -> p = isDone) /\
    (forall (cmd : trackCmd.t) (p : IsDoneFunc),
        fst (fst (Start ctx cmd tel)) = Some p -> p = isDone) /\
    (forall (cmd : pathCmd.t) (p : IsDoneFunc),
        fst (fst (Start ctx cmd tel)) = Some p -> p = isDone) /\
    snd (isDone rec) = None /\
    (fst (isDone rec) = true <->
       QtyOfFreeProgramTrackStackPositions rec = 9999%Z /\
       abs_lt (1 # 10000) (AzimuthCurrentVelocity rec) /\
       abs_lt (1 # 10000) (ElevationCurrentVelocity rec)) /\
    (QtyOfFreeProgramTrackStackPositions rec = 9998%Z \/
     QtyOfFreeProgramTrackStackPositions rec = 10000%Z ->
     fst (isDone rec) = false).
Proof.
  exists pattern.isDone.
  assert (Hiff : fst (pattern.isDone rec) = true <->
            QtyOfFreeProgramTrackStackPositions rec = 9999%Z /\
            abs_lt (1 # 10000) (AzimuthCurrentVelocity rec) /\
            abs_lt (1 # 10000) (ElevationCurrentVelocity rec)).
  { unfold pattern.isDone, speedTol, maxFreeProgramTrackStack. cbn [fst].
    rewrite !andb_true_iff, Z.eqb_eq, !abs_ltb_tolerance.
    change (10000 - 1)%Z with 9999%Z. tauto. }
  split; [ reflexivity | ].
  split; [ intros cmd p; cbn; congruence | ].
  split.
  { intros cmd p. cbn. unfold trackCmd.Start.
    destruct (NewTrackScanPattern _ _ _ _ _) as [pat [e | ]]; cbn; congruence. }
  split; [ intros cmd p; cbn; congruence | ].
  split; [ reflexivity | ]. split; [ exact Hiff | ].
  intros Hq. destruct (fst (pattern.isDone rec)); [ | reflexivity ].
  destruct Hiff as [Hd _]. destruct (Hd eq_refl) as [Hq' _]. lia.
Qed.

(** ** Check of the Track command *)

Lemma trackCmd_Check_result (cmd : trackCmd.t) (l : Log) :
  trackCmd.Check cmd l =
  (if String.eqb (trackCmd.Coordsys cmd) "Horizon" || String.eqb (trackCmd.Coordsys cmd) "ICRS"
   then if (trackCmd.StopTime cmd <? trackCmd.StartTime cmd)%float
        then Some (errBadTimes (trackCmd.StartTime cmd) (trackCmd.StopTime cmd))
        else None
   else Some (errBadCoordsys (trackCmd.Coordsys cmd)), l).
Proof.
  unfold trackCmd.Check, orReturn, bind, ret.
  destruct (String.eqb (trackCmd.Coordsys cmd) "Horizon");
    [ | destruct (String.eqb (trackCmd.Coordsys cmd) "ICRS") ]; cbn [orb];
    try reflexivity;
    destruct (trackCmd.StopTime cmd <? trackCmd.StartTime cmd)%float; reflexivity.
Qed.

(** C5: Check of the Track command returns an error exactly when the
    coordinate system is neither "Horizon" nor "ICRS" or the stop time is
    strictly before the start time; "Galactic" fails, and "ICRS" with equal
    stop and start times succeeds. *)
Theorem trackCmd_Check_error (cmd : trackCmd.t) (l : Log) :
  (fst (trackCmd.Check cmd l) <> None <->
     (trackCmd.Coordsys cmd <> "Horizon"%string /\ trackCmd.Coordsys cmd <> "ICRS"%string) \/
     elt (value (trackCmd.StopTime cmd)) (value (trackCmd.StartTime cmd))) /\
  (forall start stop ra dec : float,
      fst (trackCmd.Check
             {| trackCmd.StartTime := start; trackCmd.StopTime := stop;
                trackCmd.RA := ra; trackCmd.Dec := dec;
                trackCmd.Coordsys := "Galactic" |} l) <> None) /\
  (forall t ra dec : float,
      fst (trackCmd.Check
             {| trackCmd.StartTime := t; trackCmd.StopTime := t;
                trackCmd.RA := ra; trackCmd.Dec := dec;
                trackCmd.Coordsys := "ICRS" |} l) = None).
Proof.
  assert (Hgen : forall c : trackCmd.t,
             fst (trackCmd.Check c l) <> None <->
             (trackCmd.Coordsys c <> "Horizon"%string /\ trackCmd.Coordsys c <> "ICRS"%string) \/
             elt (value (trackCmd.StopTime c)) (value (trackCmd.StartTime c))).
  { intros c. rewrite trackCmd_Check_result. cbn [fst]. rewrite <- ltb_elt.
    destruct (String.eqb_spec (trackCmd.Coordsys c) "Horizon") as [H | H];
      [ | destruct (String.eqb_spec (trackCmd.Coordsys c) "ICRS") as [I | I] ]; cbn [orb].
    - destruct (trackCmd.StopTime c <? trackCmd.StartTime c)%float; split.
      + intros _. right. reflexivity.
      + intros _. discriminate.
      + intros F. exfalso. apply F. reflexivity.
      + intros [[F _] | F]; [ contradiction | discriminate ].
    - destruct (trackCmd.StopTime c <? trackCmd.StartTime c)%float; split.
      + intros _. right. reflexivity.
      + intros _. discriminate.
      + intros F. exfalso. apply F. reflexivity.
      + intros [[_ F] | F]; [ contradiction | discriminate ].
    - split; [ intros _; left; split; assumption | intros _; discriminate ]. }
  split; [ apply Hgen | ]. split.
  - intros start stop ra dec. apply Hgen. left. cbn. split; discriminate.
  - intros t ra dec. destruct (fst (trackCmd.Check _ l)) eqn:Hr; [ | reflexivity ].
    exfalso.
    assert (Hne : fst (trackCmd.Check
               {| trackCmd.StartTime := t; trackCmd.StopTime := t;
                  trackCmd.RA := ra; trackCmd.Dec := dec;
                  trackCmd.Coordsys := "ICRS" |} l) <> None) by (rewrite Hr; discriminate).
    apply Hgen in Hne. cbn in Hne. destruct Hne as [[_ F] | F].
    + apply F. reflexivity.
    + destruct (value t); cbn [elt] in F; try contradiction.
      revert F. apply Qlt_irrefl.
Qed.

(** ** Check of the Path command *)

Lemma checkAzEl_validator (pt : TimePositionTransfer) (l : Log) :
  fst (checkAzEl (AzPosition pt) (ElPosition pt) (AzVelocity pt) (ElVelocity pt) l) =
  validator pt.
Proof. unfold validator. rewrite !checkAzEl_result. reflexivity. Qed.

Lemma pointsLoop_produced (pattern : ScanPattern) (n : nat) :
  forall (iter : iter_t pattern) (i : Z) (l : Log),
    fst (pathCmd.pointsLoop pattern iter i n l) = firstFailure (produced pattern iter n) i.
Proof.
  induction n as [ | n IH]; intros iter i l; cbn [pathCmd.pointsLoop produced].
  - reflexivity.
  - destruct (Done pattern iter); [ reflexivity | ].
    destruct (Next pattern iter) as [iter' [msg | pt]]; cbn [firstFailure].
    + reflexivity.
    + unfold bind. rewrite <- (checkAzEl_validator pt l).
      destruct (checkAzEl _ _ _ _ l) as [[e | ] l']; cbn [fst].
      * reflexivity.
      * apply IH.
Qed.

Lemma pointsLoop_log_grows (pattern : ScanPattern) (n : nat) :
  forall (iter : iter_t pattern) (i : Z) (l : Log),
    exists added, snd (pathCmd.pointsLoop pattern iter i n l) = (l ++ added)%list.
Proof.
  induction n as [ | n IH]; intros iter i l; cbn [pathCmd.pointsLoop].
  - exists []. cbn. symmetry. apply app_nil_r.
  - destruct (Done pattern iter); [ exists []; cbn; symmetry; apply app_nil_r | ].
    destruct (Next pattern iter) as [iter' [msg | pt]].
    + exists []. cbn. symmetry. apply app_nil_r.
    + unfold bind.
      pose proof (checkAzEl_log (AzPosition pt) (ElPosition pt) (AzVelocity pt) (ElVelocity pt) l) as Hl.
      destruct (checkAzEl _ _ _ _ l) as [[e | ] l']; cbn [fst snd] in *.
      * exists [e]. cbn. exact Hl.
      * subst l'. apply IH.
Qed.

Lemma produced_length (pattern : ScanPattern) (n : nat) :
  forall iter : iter_t pattern, (List.length (produced pattern iter n) <= n)%nat.
Proof.
  induction n as [ | n IH]; intros iter; cbn [produced].
  - apply Nat.le_refl.
  - destruct (Done pattern iter); [ cbn; lia | ].
    destruct (Next pattern iter) as [iter' r]. cbn [List.length].
    specialize (IH iter'). lia.
Qed.

Lemma firstFailure_kind (tr : list (string + TimePositionTransfer)) :
  forall i : Z,
    firstFailure tr i = None \/
    (exists msg, firstFailure tr i = Some (errExternal msg)) \/
    (exists k e, firstFailure tr i = Some (errPoint k e)).
Proof.
  induction tr as [ | [msg | pt] rest IH]; intros i; cbn [firstFailure].
  - left. reflexivity.
  - right; left. exists msg. reflexivity.
  - destruct (validator pt) as [e | ].
    + right; right. exists i, e. reflexivity.
    + apply IH.
Qed.

(** The first produced point that the validator rejects, with all points
    before it produced and accepted, decides the error. *)
Lemma firstFailure_at (tr : list (string + TimePositionTransfer)) :
  forall (i : Z) (k : nat) (pt : TimePositionTransfer) (e : error),
    nth_error tr k = Some (inr pt) ->
    validator pt = Some e ->
    (forall j, (j < k)%nat ->
       exists q, nth_error tr j = Some (inr q) /\ validator q = None) ->
    firstFailure tr i = Some (errPoint (i + Z.of_nat k) e).
Proof.
  induction tr as [ | r rest IH]; intros i k pt e Hk He Hbefore.
  - destruct k; discriminate.
  - destruct k as [ | k].
    + cbn in Hk. injection Hk as ->. cbn [firstFailure]. rewrite He.
      f_equal. f_equal. lia.
    + destruct (Hbefore 0%nat ltac:(lia)) as (q & Hq & Hvq).
      cbn in Hq. injection Hq as ->. cbn [firstFailure]. rewrite Hvq.
      rewrite (IH (i + 1)%Z k pt e Hk He).
      * f_equal. f_equal. lia.
      * intros j Hj. apply (Hbefore (S j)). lia.
Qed.

Lemma timesLoop_kind (points : list array5) (n : nat) :
  forall i : nat,
    pathCmd.timesLoop points i n = None \/ pathCmd.timesLoop points i n = Some errSpacing.
Proof.
  induction n as [ | n IH]; intros i; cbn [pathCmd.timesLoop].
  - left. reflexivity.
  - destruct (_ <? _)%float; [ right; reflexivity | apply IH ].
Qed.

(** The loop over the times fails exactly when one of the gaps it visits
    compares below the constant 0.05. *)
Lemma timesLoop_spacing (points : list array5) (n : nat) :
  forall i : nat,
    pathCmd.timesLoop points i n = Some errSpacing <->
    exists j, (i <= j < i + n)%nat /\ (gap points j <? 0.05)%float = true.
Proof.
  induction n as [ | n IH]; intros i; cbn [pathCmd.timesLoop].
  - split; [ discriminate | intros (j & Hj & _); lia ].
  - fold (gap points i). destruct (gap points i <? 0.05)%float eqn:Hg.
    + split; [ intros _ | reflexivity ]. exists i. split; [ lia | exact Hg ].
    + rewrite IH. split.
      * intros (j & Hj & Hlt). exists j. split; [ lia | exact Hlt ].
      * intros (j & Hj & Hlt). exists j. split; [ | exact Hlt ].
        destruct (Nat.eq_dec j i) as [-> | Hne]; [ congruence | lia ].
Qed.

(** The constant [0.05] of the source is the binary64 number just above
    the real 1/20; below it lie exactly the binary64 numbers below 1/20. *)
Lemma ltb_min_interval (x : float) :
  (x <? 0.05)%float = true <-> below (1 # 20) x.
Proof.
  apply (ltb_rounded_const x 0.05%float 7205759403792794 (-57)).
  - reflexivity.
  - reflexivity.
  - vm_compute. reflexivity.
  - vm_compute. discriminate.
Qed.

Lemma at_least_not_below (b : Q) (x : float) : at_least b x -> ~ below b x.
Proof.
  unfold at_least, below. destruct (value x); cbn [elt]; try tauto.
  intros H. apply Qle_not_lt. exact H.
Qed.

Lemma recognised_true (coordsys : string) :
  recognised coordsys = true <-> coordsys = "Horizon"%string \/ coordsys = "ICRS"%string.
Proof.
  unfold recognised. rewrite orb_true_iff, !String.eqb_eq. tauto.
Qed.

(** What Check of the Path command returns, check by check. *)
Lemma pathCmd_Check_result {E : Collaborators} (cmd : pathCmd.t) (l : Log) :
  fst (pathCmd.Check cmd l) =
  if recognised (pathCmd.Coordsys cmd) then
    match pathCmd.Points cmd with
    | [] => Some errNoPoints
    | _ :: _ =>
      match pathCmd.timesLoop (pathCmd.Points cmd) 1 (List.length (pathCmd.Points cmd) - 1) with
      | Some e => Some e
      | None =>
        let pattern := NewPathScanPattern (pathCmd.Coordsys cmd) (pathCmd.Points cmd) in
        firstFailure (produced pattern (Iterator pattern) 100) 0
      end
    end
  else Some (errBadCoordsys (pathCmd.Coordsys cmd)).
Proof.
  unfold pathCmd.Check, recognised, orReturn, bind, ret.
  destruct (String.eqb (pathCmd.Coordsys cmd) "Horizon");
    [ | destruct (String.eqb (pathCmd.Coordsys cmd) "ICRS") ]; cbn [orb];
    try reflexivity;
    (destruct (pathCmd.Points cmd) as [ | p rest] eqn:Hp; [ reflexivity | ];
     cbn [List.length Nat.eqb];
     destruct (pathCmd.timesLoop _ _ _); [ reflexivity | ];
     apply pointsLoop_produced).
Qed.

(** C4, as the code has it: Check of a Path command without points fails
    with the "no points" error when the coordinate system is "Horizon" or
    "ICRS", and with the "bad coordinate system" error otherwise, the
    coordinate system being checked first. *)
Theorem pathCmd_Check_no_points {E : Collaborators} (cmd : pathCmd.t) (l : Log) :
  pathCmd.Points cmd = [] ->
  (pathCmd.Coordsys cmd = "Horizon"%string \/ pathCmd.Coordsys cmd = "ICRS"%string ->
   fst (pathCmd.Check cmd l) = Some errNoPoints) /\
  (pathCmd.Coordsys cmd <> "Horizon"%string /\ pathCmd.Coordsys cmd <> "ICRS"%string ->
   fst (pathCmd.Check cmd l) = Some (errBadCoordsys (pathCmd.Coordsys cmd))).
Proof.
  intros Hp. rewrite pathCmd_Check_result, Hp. split.
  - intros Hc. apply recognised_true in Hc. rewrite Hc. reflexivity.
  - intros Hc. destruct (recognised (pathCmd.Coordsys cmd)) eqn:Hr; [ | reflexivity ].
    apply recognised_true in Hr. tauto.
Qed.

Lemma pathCmd_Check_no_points_witness :
  fst (pathCmd.Check (E := Bench.collaborators)
         {| pathCmd.Coordsys := "ICRS"; pathCmd.Points := [] |} []) = Some errNoPoints.
Proof.
  exact (proj1 (pathCmd_Check_no_points (E := Bench.collaborators)
                  {| pathCmd.Coordsys := "ICRS"; pathCmd.Points := [] |} [] eq_refl)
               (or_intror eq_refl)).
Defined.

(** C4 as stated fails: without points and with the coordinate system
    "Galactic", Check returns the "bad coordinate system" error, not the
    "no points" error. *)
Lemma pathCmd_Check_no_points_unrecognised :
  pathCmd.Points {| pathCmd.Coordsys := "Galactic"; pathCmd.Points := [] |} = [] /\
  fst (pathCmd.Check (E := Bench.collaborators)
         {| pathCmd.Coordsys := "Galactic"; pathCmd.Points := [] |} [])
    = Some (errBadCoordsys "Galactic") /\
  fst (pathCmd.Check (E := Bench.collaborators)
         {| pathCmd.Coordsys := "Galactic"; pathCmd.Points := [] |} [])
    <> Some errNoPoints.
Proof.
  split; [ reflexivity | ]. split; [ reflexivity | discriminate ].
Qed.

Lemma firstFailure_not_spacing (tr : list (string + TimePositionTransfer)) (i : Z) :
  firstFailure tr i <> Some errSpacing.
Proof.
  destruct (firstFailure_kind tr i) as [H | [(msg & H) | (k & e & H)]];
    rewrite H; discriminate.
Qed.

(** With a recognised coordinate system and at least one point, Check
    returns the spacing error exactly when some gap is below 1/20. *)
Lemma pathCmd_Check_spacing_iff {E : Collaborators} (cmd : pathCmd.t) (l : Log) :
  pathCmd.Coordsys cmd = "Horizon"%string \/ pathCmd.Coordsys cmd = "ICRS"%string ->
  pathCmd.Points cmd <> [] ->
  fst (pathCmd.Check cmd l) = Some errSpacing <->
  exists i, (1 <= i < List.length (pathCmd.Points cmd))%nat /\
            below (1 # 20) (gap (pathCmd.Points cmd) i).
Proof.
  intros Hc Hne. rewrite pathCmd_Check_result.
  apply recognised_true in Hc. rewrite Hc.
  destruct (pathCmd.Points cmd) as [ | p rest] eqn:Hp; [ contradiction | ].
  rewrite <- Hp.
  assert (Hlen : (1 + (List.length (pathCmd.Points cmd) - 1) =
                  List.length (pathCmd.Points cmd))%nat) by (rewrite Hp; cbn; lia).
  pose proof (timesLoop_spacing (pathCmd.Points cmd)
                (List.length (pathCmd.Points cmd) - 1) 1) as Hloop.
  rewrite Hlen in Hloop.
  assert (Hsame : (exists j, (1 <= j < List.length (pathCmd.Points cmd))%nat /\
                             (gap (pathCmd.Points cmd) j <? 0.05)%float = true) <->
                  (exists i, (1 <= i < List.length (pathCmd.Points cmd))%nat /\
                             below (1 # 20) (gap (pathCmd.Points cmd) i))).
  { split; intros (j & Hj & Hg); exists j; (split; [ exact Hj | ]);
      apply ltb_min_interval; exact Hg. }
  rewrite <- Hsame, <- Hloop.
  destruct (timesLoop_kind (pathCmd.Points cmd)
              (List.length (pathCmd.Points cmd) - 1) 1) as [Hk | Hk]; rewrite Hk.
  - cbv zeta. split; [ | discriminate ].
    intros F. exfalso. revert F. apply firstFailure_not_spacing.
  - tauto.
Qed.

(** C6, as the code has it: with a recognised coordinate system and at
    least one point, Check fails with the spacing error exactly when the
    float64 difference of two consecutive times is below 0.05, hence never
    when every difference is at least 0.05; two points at times 0 and
    0.0499 fail, two points at times 0 and 0.05 pass the spacing check. *)
Theorem pathCmd_Check_spacing {E : Collaborators} (cmd : pathCmd.t) (l : Log) :
  pathCmd.Coordsys cmd = "Horizon"%string \/ pathCmd.Coordsys cmd = "ICRS"%string ->
  pathCmd.Points cmd <> [] ->
  (fst (pathCmd.Check cmd l) = Some errSpacing <->
   exists i, (1 <= i < List.length (pathCmd.Points cmd))%nat /\
             below (1 # 20) (gap (pathCmd.Points cmd) i)) /\
  ((forall i, (1 <= i < List.length (pathCmd.Points cmd))%nat ->
              at_least (1 # 20) (gap (pathCmd.Points cmd) i)) ->
   fst (pathCmd.Check cmd l) <> Some errSpacing) /\
  (forall a b : array5,
      at0 a = 0%float -> at0 b = 0.0499%float -> pathCmd.Points cmd = [a; b] ->
      fst (pathCmd.Check cmd l) = Some errSpacing) /\
  (forall a b : array5,
      at0 a = 0%float -> at0 b = 0.05%float -> pathCmd.Points cmd = [a; b] ->
      fst (pathCmd.Check cmd l) <> Some errSpacing).
Proof.
  intros Hc Hne. pose proof (pathCmd_Check_spacing_iff cmd l Hc Hne) as Hiff.
  split; [ exact Hiff | ]. split; [ | split ].
  - intros Hall Hs. apply Hiff in Hs. destruct Hs as (i & Hi & Hb).
    exact (at_least_not_below _ _ (Hall i Hi) Hb).
  - intros a b Ha Hb Hp. apply Hiff. exists 1%nat. rewrite Hp.
    split; [ cbn; lia | ]. apply ltb_min_interval.
    unfold gap, pathCmd.index. cbn [nth Nat.sub]. rewrite Ha, Hb. reflexivity.
  - intros a b Ha Hb Hp Hs. apply Hiff in Hs. destruct Hs as (i & Hi & Hbelow).
    rewrite Hp in Hi, Hbelow. cbn [List.length] in Hi.
    assert (i = 1%nat) by lia. subst i.
    apply ltb_min_interval in Hbelow. revert Hbelow.
    unfold gap, pathCmd.index. cbn [nth Nat.sub]. rewrite Ha, Hb. discriminate.
Qed.

Lemma pathCmd_Check_spacing_witness :
  fst (pathCmd.Check (E := Bench.collaborators)
         {| pathCmd.Coordsys := "Horizon";
            pathCmd.Points := [(0, 10, 20, 0, 0); (0.05, 10, 20, 0, 0)]%float |} [])
    <> Some errSpacing.
Proof.
  exact (proj2 (proj2 (proj2
           (pathCmd_Check_spacing (E := Bench.collaborators)
              {| pathCmd.Coordsys := "Horizon";
                 pathCmd.Points := [(0, 10, 20, 0, 0); (0.05, 10, 20, 0, 0)]%float |} []
              (or_introl eq_refl)
              (fun H => eq_ind [] (fun p => match p with [] => True | _ :: _ => False end)
                               I _ (eq_sym H)))))
         (0, 10, 20, 0, 0)%float (0.05, 10, 20, 0, 0)%float eq_refl eq_refl eq_refl).
Defined.

(** C6 as stated fails: the float64 sum 2 + 0.05 is below the real 2.05,
    so the points at times 2 and 2 + 0.05, and the points at times 2 and
    2.05, are rejected with the spacing error. *)
Lemma pathCmd_Check_spacing_rounding :
  fst (pathCmd.Check (E := Bench.collaborators)
         {| pathCmd.Coordsys := "Horizon";
            pathCmd.Points := [(2, 10, 20, 0, 0); (2 + 0.05, 10, 20, 0, 0)]%float |} [])
    = Some errSpacing /\
  fst (pathCmd.Check (E := Bench.collaborators)
         {| pathCmd.Coordsys := "Horizon";
            pathCmd.Points := [(2, 10, 20, 0, 0); (2.05, 10, 20, 0, 0)]%float |} [])
    = Some errSpacing.
Proof.
  split; vm_compute; reflexivity.
Qed.

Lemma timesLoop_times (points points' : list array5) (n : nat) :
  map at0 points = map at0 points' ->
  forall i : nat, pathCmd.timesLoop points i n = pathCmd.timesLoop points' i n.
Proof.
  intros Hm.
  assert (Hat : forall j, at0 (pathCmd.index points j) = at0 (pathCmd.index points' j)).
  { intros j. unfold pathCmd.index.
    rewrite <- (map_nth at0 points), <- (map_nth at0 points'), Hm. reflexivity. }
  induction n as [ | n IH]; intros i; cbn [pathCmd.timesLoop].
  - reflexivity.
  - rewrite !Hat, IH. reflexivity.
Qed.

(** Past the checks of the coordinate system, of the number of points and
    of the times, Check returns the first failure among the points
    produced in the first 100 rounds. *)
Lemma pathCmd_Check_points {E : Collaborators} (cmd : pathCmd.t) (l : Log) :
  pathCmd.Coordsys cmd = "Horizon"%string \/ pathCmd.Coordsys cmd = "ICRS"%string ->
  pathCmd.Points cmd <> [] ->
  fst (pathCmd.Check cmd l) <> Some errSpacing ->
  fst (pathCmd.Check cmd l) =
  firstFailure
    (produced (NewPathScanPattern (pathCmd.Coordsys cmd) (pathCmd.Points cmd))
       (Iterator (NewPathScanPattern (pathCmd.Coordsys cmd) (pathCmd.Points cmd))) 100) 0.
Proof.
  intros Hc Hne. rewrite pathCmd_Check_result.
  apply recognised_true in Hc. rewrite Hc.
  destruct (timesLoop_kind (pathCmd.Points cmd)
              (List.length (pathCmd.Points cmd) - 1) 1) as [Hk | Hk]; rewrite Hk.
  - intros _. destruct (pathCmd.Points cmd); [ contradiction | reflexivity ].
  - destruct (pathCmd.Points cmd); [ contradiction | ].
    intros F. exfalso. apply F. reflexivity.
Qed.

(** C7: Check of the Path command validates the points that the pattern
    produces in its first 100 rounds and no others.  When the first of
    them that the validator rejects is point [k], all points before it
    produced and accepted and the earlier checks passed, Check fails with
    the error of the validator for point [k], labelled with [k].  And the
    result of Check is the same for two commands with the same coordinate
    system and the same times whose patterns produce the same points in
    the first 100 rounds, whatever they produce later. *)
Theorem pathCmd_Check_first_100 {E : Collaborators} (cmd : pathCmd.t) (l : Log) :
  let pattern := NewPathScanPattern (pathCmd.Coordsys cmd) (pathCmd.Points cmd) in
  let first100 := produced pattern (Iterator pattern) 100 in
  (List.length first100 <= 100)%nat /\
  (forall (k : nat) (pt : TimePositionTransfer) (e : error),
      pathCmd.Coordsys cmd = "Horizon"%string \/ pathCmd.Coordsys cmd = "ICRS"%string ->
      pathCmd.Points cmd <> [] ->
      fst (pathCmd.Check cmd l) <> Some errSpacing ->
      nth_error first100 k = Some (inr pt) ->
      validator pt = Some e ->
      (forall j, (j < k)%nat ->
         exists q, nth_error first100 j = Some (inr q) /\ validator q = None) ->
      (k < 100)%nat /\ fst (pathCmd.Check cmd l) = Some (errPoint (Z.of_nat k) e)) /\
  (forall (cmd' : pathCmd.t) (l' : Log),
      pathCmd.Coordsys cmd' = pathCmd.Coordsys cmd ->
      map at0 (pathCmd.Points cmd') = map at0 (pathCmd.Points cmd) ->
      (let pattern' := NewPathScanPattern (pathCmd.Coordsys cmd') (pathCmd.Points cmd') in
       produced pattern' (Iterator pattern') 100 = first100) ->
      fst (pathCmd.Check cmd' l') = fst (pathCmd.Check cmd l)).
Proof.
  intros pattern first100. split; [ apply produced_length | ]. split.
  - intros k pt e Hc Hne Hs Hk He Hbefore. split.
    + pose proof (produced_length pattern 100 (Iterator pattern)) as Hlen.
      assert (Hsome : nth_error first100 k <> None) by (rewrite Hk; discriminate).
      apply nth_error_Some in Hsome. fold first100 in Hlen. lia.
    + rewrite (pathCmd_Check_points cmd l Hc Hne Hs).
      apply (firstFailure_at first100 0 k pt e Hk He Hbefore).
  - intros cmd' l' Hcs Htimes Hprod. cbv zeta in Hprod.
    rewrite !pathCmd_Check_result, Hcs.
    destruct (recognised (pathCmd.Coordsys cmd)); [ | reflexivity ].
    assert (Hlen : List.length (pathCmd.Points cmd') = List.length (pathCmd.Points cmd)).
    { rewrite <- (length_map at0 (pathCmd.Points cmd')), Htimes. apply length_map. }
    rewrite (timesLoop_times _ _ _ Htimes), Hlen.
    subst first100 pattern. rewrite Hcs in Hprod. cbv zeta. rewrite <- Hprod. clear Hprod.
    destruct (pathCmd.Points cmd') as [ | p' rest'];
      destruct (pathCmd.Points cmd) as [ | p rest]; try discriminate; reflexivity.
Qed.

Lemma pathCmd_Check_first_100_witness :
  fst (pathCmd.Check (E := Bench.collaborators) Bench.longPathOutside []) =
  fst (pathCmd.Check (E := Bench.collaborators) Bench.longPath []).
Proof.
  apply (proj2 (proj2 (pathCmd_Check_first_100 (E := Bench.collaborators) Bench.longPath []))).
  - reflexivity.
  - vm_compute. reflexivity.
  - vm_compute. reflexivity.
Defined.

(** The last point of [Bench.longPathOutside] violates the validator, and
    Check accepts the path. *)
Lemma pathCmd_Check_accepts_point_100 :
  validator (Bench.passThrough (100, 1000, -50, 99, 99)%float) <> None /\
  nth_error (pathCmd.Points Bench.longPathOutside) 100 = Some (100, 1000, -50, 99, 99)%float /\
  fst (pathCmd.Check (E := Bench.collaborators) Bench.longPathOutside []) = None.
Proof.
  split; [ vm_compute; discriminate | ]. split; vm_compute; reflexivity.
Qed.

(** ** Start *)

(** What the shared procedure does to the telescope: one upload started,
    then one mode-set call, whose answer is the error returned. *)
Lemma startPattern_result {E : Collaborators} (ctx : context) (pattern : ScanPattern)
    (tel : Telescope) :
  startPattern ctx pattern tel =
  ((Some pattern.isDone, reply (calls tel) (CallModeSet "ProgramTrack")),
   {| calls := calls tel ++ [CallModeSet "ProgramTrack"];
      uploads := uploads tel ++ [(ctx, pattern)] |}).
Proof. reflexivity. Qed.

Lemma moveToCmd_Start_result {E : Collaborators} (ctx : context) (cmd : moveToCmd.t)
    (tel : Telescope) :
  moveToCmd.Start ctx cmd tel =
  ((Some moveToCmd.isDone,
    reply (calls tel) (CallMoveTo (moveToCmd.Azimuth cmd) (moveToCmd.Elevation cmd))),
   {| calls := calls tel ++ [CallMoveTo (moveToCmd.Azimuth cmd) (moveToCmd.Elevation cmd)];
      uploads := uploads tel |}).
Proof. reflexivity. Qed.

(** When the trajectory is generated, Start of the Track command starts
    its upload and sets the mode. *)
Lemma trackCmd_Start_generated {E : Collaborators} (ctx : context) (cmd : trackCmd.t)
    (tel : Telescope) :
  snd (generated cmd) = None ->
  trackCmd.Start ctx cmd tel = startPattern ctx (fst (generated cmd)) tel.
Proof.
  unfold trackCmd.Start, generated.
  destruct (NewTrackScanPattern _ _ _ _ _) as [pattern [e | ]]; cbn [fst snd].
  - discriminate.
  - reflexivity.
Qed.

(** A failed generation ends Start of the Track command at once. *)
Lemma trackCmd_Start_failed {E : Collaborators} (ctx : context) (cmd : trackCmd.t)
    (tel : Telescope) (e : error) :
  snd (generated cmd) = Some e ->
  trackCmd.Start ctx cmd tel = ((None, Some e), tel).
Proof.
  unfold trackCmd.Start, generated.
  destruct (NewTrackScanPattern _ _ _ _ _) as [pattern [e' | ]]; cbn [fst snd].
  - intros [= ->]. reflexivity.
  - discriminate.
Qed.

(** C8: when trajectory generation fails, Start of the Track command
    returns the error of the generation and a nil predicate, and leaves the
    telescope as it was: no call is made on the facade and no upload is
    started. *)
Theorem trackCmd_Start_generation_failure {E : Collaborators} (ctx : context)
    (cmd : trackCmd.t) (tel : Telescope) (e : error) :
  snd (generated cmd) = Some e ->
  fst (trackCmd.Start ctx cmd tel) = (None, Some e) /\
  calls (snd (trackCmd.Start ctx cmd tel)) = calls tel /\
  uploads (snd (trackCmd.Start ctx cmd tel)) = uploads tel.
Proof.
  intros He. rewrite (trackCmd_Start_failed ctx cmd tel e He). repeat split.
Qed.

Lemma trackCmd_Start_generation_failure_witness :
  let cmd := {| trackCmd.StartTime := 0; trackCmd.StopTime := 60;
                trackCmd.RA := 10; trackCmd.Dec := 20;
                trackCmd.Coordsys := "Galactic" |}%float in
  fst (trackCmd.Start (E := Bench.collaborators) tt cmd Bench.idle) =
    (None, Some (errExternal "cannot generate trajectory")) /\
  calls (snd (trackCmd.Start (E := Bench.collaborators) tt cmd Bench.idle)) = [] /\
  uploads (snd (trackCmd.Start (E := Bench.collaborators) tt cmd Bench.idle)) = [].
Proof.
  exact (trackCmd_Start_generation_failure (E := Bench.collaborators) tt
           {| trackCmd.StartTime := 0; trackCmd.StopTime := 60;
              trackCmd.RA := 10; trackCmd.Dec := 20;
              trackCmd.Coordsys := "Galactic" |}%float
           Bench.idle (errExternal "cannot generate trajectory") eq_refl).
Defined.

(** C10: Start of the Point command returns its predicate together with
    whatever MoveTo answered, and the shared procedure returns its
    predicate together with whatever ModeSet answered, an error included;
    over the four commands, Start returns a nil predicate exactly for a
    Track command whose trajectory generation fails. *)
Theorem Start_predicate_nil_iff {E : Collaborators} (ctx : context) (cmd : command)
    (tel : Telescope) :
  (forall c : moveToCmd.t,
      fst (moveToCmd.Start ctx c tel) =
      (Some moveToCmd.isDone,
       reply (calls tel) (CallMoveTo (moveToCmd.Azimuth c) (moveToCmd.Elevation c)))) /\
  (forall pattern : ScanPattern,
      fst (startPattern ctx pattern tel) =
      (Some pattern.isDone, reply (calls tel) (CallModeSet "ProgramTrack"))) /\
  (fst (fst (Start ctx cmd tel)) = None <->
   exists c : trackCmd.t, cmd = Track c /\ snd (generated c) <> None).
Proof.
  split; [ reflexivity | ]. split; [ reflexivity | ].
  destruct cmd as [c | c | c | c]; cbn [Start command_Command moveToCmd_Command
    azScanCmd_Command trackCmd_Command pathCmd_Command].
  - rewrite moveToCmd_Start_result. cbn [fst]. split; [ discriminate | ].
    intros (c' & Hc & _). discriminate.
  - unfold azScanCmd.Start. rewrite startPattern_result. cbn [fst].
    split; [ discriminate | ]. intros (c' & Hc & _). discriminate.
  - split.
    + intros Hnil. exists c. split; [ reflexivity | ].
      intros Hgen. rewrite (trackCmd_Start_generated ctx c tel Hgen) in Hnil.
      rewrite startPattern_result in Hnil. discriminate.
    + intros (c' & [= <-] & Hgen).
      destruct (snd (generated c)) as [e | ] eqn:He; [ | contradiction ].
      rewrite (trackCmd_Start_failed ctx c tel e He). reflexivity.
  - unfold pathCmd.Start. rewrite startPattern_result. cbn [fst].
    split; [ discriminate | ]. intros (c' & Hc & _). discriminate.
Qed.

(** On the bench the device refuses every call: Start of a Point command
    and the shared procedure return the refusal and a predicate all the
    same. *)
Lemma Start_refused :
  (exists p, fst (moveToCmd.Start (E := Bench.collaborators) tt
                    {| moveToCmd.Azimuth := 10; moveToCmd.Elevation := 20 |}%float
                    Bench.idle) = (Some p, Some Bench.refused)) /\
  (exists p, fst (startPattern (E := Bench.collaborators) tt (Bench.replay []) Bench.idle)
             = (Some p, Some Bench.refused)).
Proof.
  split; eexists; reflexivity.
Qed.

(** ** Check twice *)

(** What Check returns does not depend on what the log holds. *)
Lemma Check_log_independent {E : Collaborators} (cmd : command) (l l' : Log) :
  fst (Check cmd l) = fst (Check cmd l').
Proof.
  destruct cmd as [c | c | c | c]; cbn [Check command_Command moveToCmd_Command
    azScanCmd_Command trackCmd_Command pathCmd_Command].
  - unfold moveToCmd.Check. rewrite !checkAzEl_result. reflexivity.
  - reflexivity.
  - rewrite !trackCmd_Check_result. reflexivity.
  - rewrite !pathCmd_Check_result. reflexivity.
Qed.

(** Check only adds lines to the log. *)
Lemma Check_log_grows {E : Collaborators} (cmd : command) (l : Log) :
  exists added, snd (Check cmd l) = (l ++ added)%list.
Proof.
  destruct cmd as [c | c | c | c]; cbn [Check command_Command moveToCmd_Command
    azScanCmd_Command trackCmd_Command pathCmd_Command].
  - unfold moveToCmd.Check. rewrite checkAzEl_log.
    destruct (fst (checkAzEl _ _ _ _ l)) as [e | ];
      [ exists [e]; reflexivity | exists []; symmetry; apply app_nil_r ].
  - exists []. cbn. symmetry. apply app_nil_r.
  - rewrite trackCmd_Check_result. exists []. cbn. symmetry. apply app_nil_r.
  - unfold pathCmd.Check, orReturn, bind, ret.
    destruct (String.eqb (pathCmd.Coordsys c) "Horizon");
      [ | destruct (String.eqb (pathCmd.Coordsys c) "ICRS") ];
      try (exists []; cbn; symmetry; apply app_nil_r);
      (destruct (List.length (pathCmd.Points c) =? 0)%nat;
       [ exists []; cbn; symmetry; apply app_nil_r | ];
       destruct (pathCmd.timesLoop _ _ _);
       [ exists []; cbn; symmetry; apply app_nil_r | ];
       apply pointsLoop_log_grows).
Qed.

(** C9: for each of the four commands, a second Check of the same command,
    run on the log that the first Check left, returns what the first
    returned; the command is a value that Check only reads, and the one
    object that Check changes, the log, does not influence the result. *)
Theorem Check_twice {E : Collaborators} (cmd : command) (l : Log) :
  let first := Check cmd l in
  let second := Check cmd (snd first) in
  fst second = fst first /\
  (forall c : moveToCmd.t, fst (Check c (snd (Check c l))) = fst (Check c l)) /\
  (forall c : azScanCmd.t, fst (Check c (snd (Check c l))) = fst (Check c l)) /\
  (forall c : trackCmd.t, fst (Check c (snd (Check c l))) = fst (Check c l)) /\
  (forall c : pathCmd.t, fst (Check c (snd (Check c l))) = fst (Check c l)).
Proof.
  cbv zeta. split; [ apply Check_log_independent | ].
  split; [ intros c; apply (Check_log_independent (Point c)) | ].
  split; [ intros c; apply (Check_log_independent (AzimuthScan c)) | ].
  split; [ intros c; apply (Check_log_independent (Track c)) | ].
  intros c; apply (Check_log_independent (Path c)).
Qed.

(** A Path command is checked twice on the bench: the iterator of the
    first Check has run to its end, the second Check makes its own and
    returns the same error, and the log holds the line of each. *)
Lemma Check_twice_path :
  let cmd := {| pathCmd.Coordsys := "Horizon";
                pathCmd.Points := [(0, 10, 20, 0, 0); (1, 400, 20, 0, 0)]%float |} in
  let first := pathCmd.Check (E := Bench.collaborators) cmd [] in
  let second := pathCmd.Check (E := Bench.collaborators) cmd (snd first) in
  fst first = Some (errPoint 1 (errOutOfRange "azimuth" 400 (-180) 360)) /\
  fst second = fst first /\
  List.length (snd first) = 1%nat /\
  List.length (snd second) = 2%nat.
Proof.
  vm_compute. repeat split.
Qed.


(** ** Further properties of the validator *)

Lemma passes_range_test (x lo hi : float) (ql qh : Q) :
  denotes lo ql -> denotes hi qh ->
  ~ passes_range ql qh x -> ((x <? lo) || (x >? hi))%float = true.
Proof.
  intros Hlo Hhi Hn. destruct ((x <? lo) || (x >? hi))%float eqn:Ht; [ reflexivity | ].
  exfalso. apply Hn. apply (range_test_false x lo hi ql qh Hlo Hhi). exact Ht.
Qed.

Lemma passes_speed_test (v hi : float) (qh : Q) :
  denotes hi qh -> ~ passes_speed qh v -> (abs v >? hi)%float = true.
Proof.
  intros Hhi Hn. destruct (abs v >? hi)%float eqn:Ht; [ reflexivity | ].
  exfalso. apply Hn. apply (speed_test_false v hi qh Hhi). exact Ht.
Qed.

(** X1: the validator reports the first violation in the order azimuth,
    elevation, azimuth velocity, elevation velocity: an azimuth that fails
    its test decides the error whatever the other arguments are, and each
    later quantity decides it only when all earlier ones pass. *)
Theorem checkAzEl_first_violation (az el vaz vel : float) (l : Log) :
  (~ passes_range (-180) 360 az ->
   fst (checkAzEl az el vaz vel l) =
   Some (errOutOfRange "azimuth" az azimuthMin azimuthMax)) /\
  (passes_range (-180) 360 az -> ~ passes_range 0 180 el ->
   fst (checkAzEl az el vaz vel l) =
   Some (errOutOfRange "elevation" el elevationMin elevationMax)) /\
  (passes_range (-180) 360 az -> passes_range 0 180 el -> ~ passes_speed 3 vaz ->
   fst (checkAzEl az el vaz vel l) =
   Some (errOutOfRange "azimuth vel" vaz (- azimuthSpeedMax)%float azimuthSpeedMax)) /\
  (passes_range (-180) 360 az -> passes_range 0 180 el -> passes_speed 3 vaz ->
   ~ passes_speed (3 # 2) vel ->
   fst (checkAzEl az el vaz vel l) =
   Some (errOutOfRange "elevation vel" vel (- elevationSpeedMax)%float elevationSpeedMax)).
Proof.
  rewrite checkAzEl_result.
  pose proof (range_test_false az _ _ _ _ azimuthMin_denotes azimuthMax_denotes) as Haz.
  pose proof (range_test_false el _ _ _ _ elevationMin_denotes elevationMax_denotes) as Hel.
  pose proof (speed_test_false vaz _ _ azimuthSpeedMax_denotes) as Hvaz.
  pose proof (speed_test_false vel _ _ elevationSpeedMax_denotes) as Hvel.
  repeat split.
  - intros H. rewrite (passes_range_test az _ _ _ _ azimuthMin_denotes azimuthMax_denotes H).
    reflexivity.
  - intros H1 H2. apply Haz in H1. rewrite H1.
    rewrite (passes_range_test el _ _ _ _ elevationMin_denotes elevationMax_denotes H2).
    reflexivity.
  - intros H1 H2 H3. apply Haz in H1. apply Hel in H2. rewrite H1, H2.
    rewrite (passes_speed_test vaz _ _ azimuthSpeedMax_denotes H3). reflexivity.
  - intros H1 H2 H3 H4. apply Haz in H1. apply Hel in H2. apply Hvaz in H3.
    rewrite H1, H2, H3.
    rewrite (passes_speed_test vel _ _ elevationSpeedMax_denotes H4). reflexivity.
Qed.

Lemma abs_opp (x : float) : abs (- x) = abs x.
Proof.
  apply Prim2SF_inj. rewrite !abs_spec, opp_spec.
  destruct (Prim2SF x); reflexivity.
Qed.

(** X2: the validator does not depend on the direction of motion:
    reversing the sign of both velocities does not change whether it
    accepts. *)
Theorem checkAzEl_velocity_sign (az el vaz vel : float) (l : Log) :
  fst (checkAzEl az el (- vaz) (- vel) l) = None <->
  fst (checkAzEl az el vaz vel l) = None.
Proof.
  rewrite !checkAzEl_result, !abs_opp.
  destruct ((az <? azimuthMin) || (az >? azimuthMax))%float; [ split; discriminate | ].
  destruct ((el <? elevationMin) || (el >? elevationMax))%float; [ split; discriminate | ].
  destruct (abs vaz >? azimuthSpeedMax)%float; [ split; discriminate | ].
  destruct (abs vel >? elevationSpeedMax)%float; [ split; discriminate | ].
  tauto.
Qed.

Lemma zero_passes_speed (b : Q) : 0 <= b -> passes_speed b 0%float.
Proof.
  intros Hb. right. unfold abs_le. cbn. exact Hb.
Qed.

(** X3: Check of the Point command looks at the two positions only: it
    succeeds exactly when the azimuth passes the test of [-180, 360] and
    the elevation the test of [0, 180], and an error it returns is the
    azimuth or the elevation error, never one of a velocity. *)
Theorem moveToCmd_Check_positions (cmd : moveToCmd.t) (l : Log) :
  (fst (moveToCmd.Check cmd l) = None <->
   passes_range (-180) 360 (moveToCmd.Azimuth cmd) /\
   passes_range 0 180 (moveToCmd.Elevation cmd)) /\
  (forall e : error,
      fst (moveToCmd.Check cmd l) = Some e ->
      e = errOutOfRange "azimuth" (moveToCmd.Azimuth cmd) azimuthMin azimuthMax \/
      e = errOutOfRange "elevation" (moveToCmd.Elevation cmd) elevationMin elevationMax).
Proof.
  unfold moveToCmd.Check.
  assert (H3 : passes_speed 3 0%float) by (apply zero_passes_speed; discriminate).
  assert (H32 : passes_speed (3 # 2) 0%float) by (apply zero_passes_speed; discriminate).
  split.
  - rewrite checkAzEl_nil_iff. unfold passes_range, passes_speed in *. tauto.
  - intros e He. apply checkAzEl_error in He.
    destruct He as [[-> _] | [[-> _] | [[_ Hn] | [_ Hn]]]].
    + left. reflexivity.
    + right. reflexivity.
    + exfalso. destruct H3 as [H | H]; [ discriminate H | exact (Hn H) ].
    + exfalso. destruct H32 as [H | H]; [ discriminate H | exact (Hn H) ].
Qed.

(** X4: a Point command that Check accepts and whose coordinates are
    numbers sends a setpoint within the envelope: Start makes one MoveTo
    call with an azimuth in [-180, 360] and an elevation in [0, 180], after
    the calls made before, and starts no upload. *)
Theorem moveToCmd_accepted_setpoint {E : Collaborators} (ctx : context)
    (cmd : moveToCmd.t) (l : Log) (tel : Telescope) :
  fst (moveToCmd.Check cmd l) = None ->
  ~ is_nan_value (moveToCmd.Azimuth cmd) ->
  ~ is_nan_value (moveToCmd.Elevation cmd) ->
  exists az el : float,
    calls (snd (moveToCmd.Start ctx cmd tel)) = (calls tel ++ [CallMoveTo az el])%list /\
    uploads (snd (moveToCmd.Start ctx cmd tel)) = uploads tel /\
    within (-180) 360 az /\ within 0 180 el.
Proof.
  intros Hc Haz Hel. unfold moveToCmd.Check in Hc. apply checkAzEl_nil_iff in Hc.
  exists (moveToCmd.Azimuth cmd), (moveToCmd.Elevation cmd).
  rewrite moveToCmd_Start_result. cbn [snd calls uploads].
  split; [ reflexivity | ]. split; [ reflexivity | ]. tauto.
Qed.

Lemma moveToCmd_accepted_setpoint_witness :
  exists az el : float,
    calls (snd (moveToCmd.Start (E := Bench.collaborators) tt
                  {| moveToCmd.Azimuth := 10; moveToCmd.Elevation := 20 |}%float
                  Bench.idle)) = ([] ++ [CallMoveTo az el])%list /\
    uploads (snd (moveToCmd.Start (E := Bench.collaborators) tt
                    {| moveToCmd.Azimuth := 10; moveToCmd.Elevation := 20 |}%float
                    Bench.idle)) = [] /\
    within (-180) 360 az /\ within 0 180 el.
Proof.
  apply (moveToCmd_accepted_setpoint (E := Bench.collaborators) tt
           {| moveToCmd.Azimuth := 10; moveToCmd.Elevation := 20 |}%float [] Bench.idle).
  - reflexivity.
  - unfold is_nan_value. vm_compute. discriminate.
  - unfold is_nan_value. vm_compute. discriminate.
Defined.

(** ** Further properties of the completion predicates *)

(** The float64 difference of a number with itself is zero. *)
Lemma sub_self (x : float) (q : Q) :
  value x = EFin q -> Prim2SF (x - x) = S754_zero false.
Proof.
  unfold value. rewrite sub_spec.
  destruct (Prim2SF x) as [s | s | | s m e]; cbn [SF2E]; try discriminate.
  - intros _. destruct s; reflexivity.
  - destruct s; discriminate.
  - intros _. unfold SF64sub, SFsub. rewrite Z.min_id. unfold shl_align.
    rewrite Z.sub_diag. cbn [fst]. reflexivity.
Qed.

Lemma sub_self_value (x : float) (q : Q) : value x = EFin q -> value (x - x) = EFin 0.
Proof.
  intros H. unfold value. rewrite (sub_self x q H). reflexivity.
Qed.

(** X5: a telescope that is exactly on target and at rest is done: when
    both axes are in preset mode, each current position is the commanded
    one and is a number, and both velocities are below the tolerance, the
    predicate of the Point command reports done. *)
Theorem moveToCmd_isDone_on_target {E : Collaborators} (rec : StatusGeneral8100)
    (qa qe : Q) :
  AzimuthMode rec = AzimuthModePreset ->
  ElevationMode rec = ElevationModePreset ->
  AzimuthCurrentPosition rec = AzimuthCommandedPosition rec ->
  ElevationCurrentPosition rec = ElevationCommandedPosition rec ->
  value (AzimuthCommandedPosition rec) = EFin qa ->
  value (ElevationCommandedPosition rec) = EFin qe ->
  abs_lt (1 # 10000) (AzimuthCurrentVelocity rec) ->
  abs_lt (1 # 10000) (ElevationCurrentVelocity rec) ->
  moveToCmd.isDone rec = (true, None).
Proof.
  intros Hma Hme Ha He Hqa Hqe Hva Hve.
  unfold moveToCmd.isDone, positionTol, speedTol. f_equal.
  rewrite Ha, He.
  repeat (apply andb_true_iff; split).
  - apply Z.eqb_eq. exact Hma.
  - apply Z.eqb_eq. exact Hme.
  - apply abs_ltb_tolerance. unfold abs_lt. rewrite (sub_self_value _ qa Hqa). reflexivity.
  - apply abs_ltb_tolerance. unfold abs_lt. rewrite (sub_self_value _ qe Hqe). reflexivity.
  - apply abs_ltb_tolerance. exact Hva.
  - apply abs_ltb_tolerance. exact Hve.
Qed.

Lemma moveToCmd_isDone_on_target_witness :
  moveToCmd.isDone (E := Bench.collaborators)
    {| AzimuthMode := 1; ElevationMode := 1;
       AzimuthCurrentPosition := 10; AzimuthCommandedPosition := 10;
       ElevationCurrentPosition := 20; ElevationCommandedPosition := 20;
       AzimuthCurrentVelocity := 0; ElevationCurrentVelocity := 0;
       QtyOfFreeProgramTrackStackPositions := 10000 |}
  = (true, None).
Proof.
  apply (moveToCmd_isDone_on_target (E := Bench.collaborators) _
           (inject_Z 5629499534213120 * 2 ^ (-49)) (inject_Z 5629499534213120 * 2 ^ (-48)));
    try reflexivity; unfold abs_lt; vm_compute; reflexivity.
Defined.

(** ** What Start does to the telescope *)


(** ** What Check writes to the log *)

Lemma checkAzEl_logged (az el vaz vel : float) (l : Log) :
  snd (checkAzEl az el vaz vel l) = (l ++ logged (fst (checkAzEl az el vaz vel l)))%list.
Proof.
  rewrite checkAzEl_log.
  destruct (fst (checkAzEl az el vaz vel l)) as [e | ] eqn:He.
  - apply checkAzEl_error in He.
    destruct He as [[-> _] | [[-> _] | [[-> _] | [-> _]]]]; reflexivity.
  - cbn. symmetry. apply app_nil_r.
Qed.

Lemma pointsLoop_logged (pattern : ScanPattern) (n : nat) :
  forall (iter : iter_t pattern) (i : Z) (l : Log),
    snd (pathCmd.pointsLoop pattern iter i n l) =
    (l ++ logged (fst (pathCmd.pointsLoop pattern iter i n l)))%list.
Proof.
  induction n as [ | n IH]; intros iter i l; cbn [pathCmd.pointsLoop].
  - cbn. symmetry. apply app_nil_r.
  - destruct (Done pattern iter); [ cbn; symmetry; apply app_nil_r | ].
    destruct (Next pattern iter) as [iter' [msg | pt]].
    + cbn. symmetry. apply app_nil_r.
    + unfold bind.
      pose proof (checkAzEl_log (AzPosition pt) (ElPosition pt) (AzVelocity pt)
                    (ElVelocity pt) l) as Hl.
      destruct (checkAzEl _ _ _ _ l) as [[e | ] l']; cbn [fst snd] in *.
      * subst l'. reflexivity.
      * subst l'. apply IH.
Qed.

Lemma pathCmd_Check_logged {E : Collaborators} (cmd : pathCmd.t) (l : Log) :
  snd (pathCmd.Check cmd l) = (l ++ logged (fst (pathCmd.Check cmd l)))%list.
Proof.
  unfold pathCmd.Check, orReturn, bind, ret.
  destruct (String.eqb (pathCmd.Coordsys cmd) "Horizon");
    [ | destruct (String.eqb (pathCmd.Coordsys cmd) "ICRS") ];
    try (cbn; symmetry; apply app_nil_r);
    (destruct (List.length (pathCmd.Points cmd) =? 0)%nat;
     [ cbn; symmetry; apply app_nil_r | ];
     destruct (pathCmd.timesLoop _ _ _) as [e | ] eqn:Ht;
     [ destruct (timesLoop_kind (pathCmd.Points cmd)
                   (List.length (pathCmd.Points cmd) - 1) 1) as [Hk | Hk];
       rewrite Hk in Ht; [ discriminate | ];
       injection Ht as <-; cbn; symmetry; apply app_nil_r | ];
     apply pointsLoop_logged).
Qed.

(** X7: Check writes to the log the errors of the validator and nothing
    else, each once and after the lines that were there: the error itself
    for a Point command, the error without its "point" label for a Path
    command; a successful Check, and one that fails on the coordinate
    system, the number of points, the spacing, the times or in the pattern,
    writes nothing. *)
Theorem Check_logged {E : Collaborators} (cmd : command) (l : Log) :
  snd (Check cmd l) = (l ++ logged (fst (Check cmd l)))%list /\
  (fst (Check cmd l) = None -> snd (Check cmd l) = l) /\
  (forall (i : Z) (e : error),
      fst (Check cmd l) = Some (errPoint i e) -> snd (Check cmd l) = (l ++ [e])%list).
Proof.
  assert (H : snd (Check cmd l) = (l ++ logged (fst (Check cmd l)))%list).
  { destruct cmd as [c | c | c | c]; cbn [Check command_Command moveToCmd_Command
      azScanCmd_Command trackCmd_Command pathCmd_Command].
    - apply checkAzEl_logged.
    - cbn. symmetry. apply app_nil_r.
    - rewrite trackCmd_Check_result. cbn [fst snd].
      destruct (String.eqb _ _ || String.eqb _ _);
        [ destruct (_ <? _)%float | ]; cbn; symmetry; apply app_nil_r.
    - apply pathCmd_Check_logged. }
  split; [ exact H | ]. split.
  - intros Hn. rewrite H, Hn. apply app_nil_r.
  - intros i e He. rewrite H, He. reflexivity.
Qed.

(** ** Further properties of Check of the Track command *)

(** X8: Check of the Track command tests the coordinate system first: an
    unrecognised one is reported, with its name, whatever the times are;
    with a recognised one a stop time before the start time is reported
    with both times, start first; and Check leaves the log as it was. *)
Theorem trackCmd_Check_errors (cmd : trackCmd.t) (l : Log) :
  snd (trackCmd.Check cmd l) = l /\
  (trackCmd.Coordsys cmd <> "Horizon"%string /\ trackCmd.Coordsys cmd <> "ICRS"%string ->
   fst (trackCmd.Check cmd l) = Some (errBadCoordsys (trackCmd.Coordsys cmd))) /\
  (trackCmd.Coordsys cmd = "Horizon"%string \/ trackCmd.Coordsys cmd = "ICRS"%string ->
   elt (value (trackCmd.StopTime cmd)) (value (trackCmd.StartTime cmd)) ->
   fst (trackCmd.Check cmd l) =
   Some (errBadTimes (trackCmd.StartTime cmd) (trackCmd.StopTime cmd))).
Proof.
  rewrite trackCmd_Check_result. cbn [fst snd]. fold (recognised (trackCmd.Coordsys cmd)).
  split; [ reflexivity | ]. split.
  - intros Hc. destruct (recognised (trackCmd.Coordsys cmd)) eqn:Hr; [ | reflexivity ].
    apply recognised_true in Hr. tauto.
  - intros Hc Ht. apply recognised_true in Hc. rewrite Hc.
    apply ltb_elt in Ht. rewrite Ht. reflexivity.
Qed.

(** ** Further properties of Check of the Path command *)

Lemma firstFailure_None (tr : list (string + TimePositionTransfer)) :
  forall i : Z,
    firstFailure tr i = None <->
    Forall (fun r => exists pt, r = inr pt /\ validator pt = None) tr.
Proof.
  induction tr as [ | [msg | pt] rest IH]; intros i; cbn [firstFailure].
  - split; [ intros _; constructor | reflexivity ].
  - split; [ discriminate | ].
    intros H. inversion H as [ | r tl (q & Hq & _) _ ]. discriminate.
  - destruct (validator pt) as [e | ] eqn:Hv.
    + split; [ discriminate | ].
      intros H. inversion H as [ | r tl (q & Hq & Hvq) _ ].
      injection Hq as <-. congruence.
    + rewrite IH. split.
      * intros H. constructor; [ exists pt; split; [ reflexivity | exact Hv ] | exact H ].
      * intros H. inversion H. assumption.
Qed.

Lemma timesLoop_None (points : list array5) (n i : nat) :
  pathCmd.timesLoop points i n = None <->
  forall j, (i <= j < i + n)%nat -> ~ below (1 # 20) (gap points j).
Proof.
  pose proof (timesLoop_spacing points n i) as Hs.
  destruct (timesLoop_kind points n i) as [Hk | Hk]; rewrite Hk in *.
  - split; [ | reflexivity ]. intros _ j Hj Hb.
    assert (F : @None error = Some errSpacing); [ | discriminate F ].
    apply Hs. exists j. split; [ exact Hj | ]. apply ltb_min_interval. exact Hb.
  - split; [ discriminate | ]. intros Hall. exfalso.
    destruct (proj1 Hs eq_refl) as (j & Hj & Hlt).
    apply (Hall j Hj). apply ltb_min_interval. exact Hlt.
Qed.

(** X9: Check of the Path command succeeds exactly when the coordinate
    system is "Horizon" or "ICRS", there is at least one point, no float64
    difference of consecutive times is below 0.05, and every round of the
    pattern among the first 100 produces a point that the validator
    accepts; a path of fewer than 100 points is validated whole. *)
Theorem pathCmd_Check_accepts_iff {E : Collaborators} (cmd : pathCmd.t) (l : Log) :
  fst (pathCmd.Check cmd l) = None <->
  (pathCmd.Coordsys cmd = "Horizon"%string \/ pathCmd.Coordsys cmd = "ICRS"%string) /\
  pathCmd.Points cmd <> [] /\
  (forall i, (1 <= i < List.length (pathCmd.Points cmd))%nat ->
             ~ below (1 # 20) (gap (pathCmd.Points cmd) i)) /\
  Forall (fun r => exists pt, r = inr pt /\ validator pt = None)
    (produced (NewPathScanPattern (pathCmd.Coordsys cmd) (pathCmd.Points cmd))
       (Iterator (NewPathScanPattern (pathCmd.Coordsys cmd) (pathCmd.Points cmd))) 100).
Proof.
  rewrite pathCmd_Check_result, <- recognised_true.
  destruct (recognised (pathCmd.Coordsys cmd));
    [ | split; [ discriminate | intros (F & _); discriminate ] ].
  destruct (pathCmd.Points cmd) as [ | p rest] eqn:Hp.
  { split; [ discriminate | intros (_ & F & _); contradiction ]. }
  rewrite <- Hp.
  assert (Hlen : (1 + (List.length (pathCmd.Points cmd) - 1) =
                  List.length (pathCmd.Points cmd))%nat) by (rewrite Hp; cbn; lia).
  pose proof (timesLoop_None (pathCmd.Points cmd)
                (List.length (pathCmd.Points cmd) - 1) 1) as Ht.
  rewrite Hlen in Ht.
  destruct (pathCmd.timesLoop _ _ _) as [e | ].
  - split; [ discriminate | ]. intros (_ & _ & Hall & _).
    apply Ht in Hall. discriminate.
  - cbv zeta. rewrite firstFailure_None. split.
    + intros Hf. split; [ reflexivity | ]. split; [ rewrite Hp; discriminate | ].
      split; [ apply Ht; reflexivity | exact Hf ].
    + intros (_ & _ & _ & Hf). exact Hf.
Qed.

(** The first round in which the pattern fails, with all points before it
    produced and accepted, decides the error. *)
Lemma firstFailure_pattern (tr : list (string + TimePositionTransfer)) :
  forall (i : Z) (k : nat) (msg : string),
    nth_error tr k = Some (inl msg) ->
    (forall j, (j < k)%nat ->
       exists q, nth_error tr j = Some (inr q) /\ validator q = None) ->
    firstFailure tr i = Some (errExternal msg).
Proof.
  induction tr as [ | r rest IH]; intros i k msg Hk Hbefore.
  - destruct k; discriminate.
  - destruct k as [ | k].
    + cbn in Hk. injection Hk as ->. reflexivity.
    + destruct (Hbefore 0%nat ltac:(lia)) as (q & Hq & Hvq).
      cbn in Hq. injection Hq as ->. cbn [firstFailure]. rewrite Hvq.
      apply (IH (i + 1)%Z k msg Hk).
      intros j Hj. apply (Hbefore (S j)). lia.
Qed.

(** X10: when the pattern fails in one of the first 100 rounds, all points
    before it produced and accepted and the earlier checks passed, Check
    returns the error of the pattern as it is, without a point label, and
    writes nothing to the log. *)
Theorem pathCmd_Check_pattern_error {E : Collaborators} (cmd : pathCmd.t) (l : Log)
    (k : nat) (msg : string) :
  pathCmd.Coordsys cmd = "Horizon"%string \/ pathCmd.Coordsys cmd = "ICRS"%string ->
  pathCmd.Points cmd <> [] ->
  fst (pathCmd.Check cmd l) <> Some errSpacing ->
  nth_error (produced (NewPathScanPattern (pathCmd.Coordsys cmd) (pathCmd.Points cmd))
               (Iterator (NewPathScanPattern (pathCmd.Coordsys cmd) (pathCmd.Points cmd)))
               100) k = Some (inl msg) ->
  (forall j, (j < k)%nat ->
     exists q,
       nth_error (produced (NewPathScanPattern (pathCmd.Coordsys cmd) (pathCmd.Points cmd))
                    (Iterator (NewPathScanPattern (pathCmd.Coordsys cmd) (pathCmd.Points cmd)))
                    100) j = Some (inr q) /\ validator q = None) ->
  pathCmd.Check cmd l = (Some (errExternal msg), l).
Proof.
  intros Hc Hne Hs Hk Hbefore.
  assert (Hr : fst (pathCmd.Check cmd l) = Some (errExternal msg)).
  { rewrite (pathCmd_Check_points cmd l Hc Hne Hs).
    apply (firstFailure_pattern _ 0 k msg Hk Hbefore). }
  pose proof (pathCmd_Check_logged cmd l) as Hl. rewrite Hr in Hl. cbn [logged] in Hl.
  rewrite app_nil_r in Hl.
  destruct (pathCmd.Check cmd l) as [r l']. cbn [fst snd] in *. congruence.
Qed.

Lemma pathCmd_Check_pattern_error_witness :
  pathCmd.Check (E := FaultyBench.collaborators)
    {| pathCmd.Coordsys := "ICRS"; pathCmd.Points := [(0, 10, 20, 0, 0)%float] |} []
  = (Some (errExternal "ephemeris lost"), []).
Proof.
  apply (pathCmd_Check_pattern_error (E := FaultyBench.collaborators)
           {| pathCmd.Coordsys := "ICRS"; pathCmd.Points := [(0, 10, 20, 0, 0)%float] |}
           [] 2 "ephemeris lost").
  - right. reflexivity.
  - discriminate.
  - vm_compute. discriminate.
  - reflexivity.
  - intros j Hj.
    exists {| AzPosition := 10; ElPosition := 20; AzVelocity := 0; ElVelocity := 0 |}%float.
    destruct j as [ | [ | j]]; [ split; reflexivity | split; reflexivity | lia ].
Defined.

(** X11: two consecutive points with the same time, a number, are
    rejected: with a recognised coordinate system Check returns the spacing
    error. *)
Theorem pathCmd_Check_duplicate_time {E : Collaborators} (cmd : pathCmd.t) (l : Log)
    (i : nat) (q : Q) :
  pathCmd.Coordsys cmd = "Horizon"%string \/ pathCmd.Coordsys cmd = "ICRS"%string ->
  (1 <= i < List.length (pathCmd.Points cmd))%nat ->
  at0 (pathCmd.index (pathCmd.Points cmd) i) =
  at0 (pathCmd.index (pathCmd.Points cmd) (i - 1)) ->
  value (at0 (pathCmd.index (pathCmd.Points cmd) i)) = EFin q ->
  fst (pathCmd.Check cmd l) = Some errSpacing.
Proof.
  intros Hc Hi Heq Hq.
  assert (Hne : pathCmd.Points cmd <> []).
  { intros F. rewrite F in Hi. cbn in Hi. lia. }
  apply (pathCmd_Check_spacing_iff cmd l Hc Hne). exists i. split; [ exact Hi | ].
  unfold below, gap. rewrite <- Heq, (sub_self_value _ q Hq). reflexivity.
Qed.

Lemma pathCmd_Check_duplicate_time_witness :
  fst (pathCmd.Check (E := Bench.collaborators)
         {| pathCmd.Coordsys := "Horizon";
            pathCmd.Points := [(5, 10, 20, 0, 0); (5, 11, 20, 0, 0)]%float |} [])
  = Some errSpacing.
Proof.
  apply (pathCmd_Check_duplicate_time (E := Bench.collaborators)
           {| pathCmd.Coordsys := "Horizon";
              pathCmd.Points := [(5, 10, 20, 0, 0); (5, 11, 20, 0, 0)]%float |} []
           1 (inject_Z 5629499534213120 * 2 ^ (-50))).
  - left. reflexivity.
  - cbn. lia.
  - reflexivity.
  - reflexivity.
Defined.

Lemma sub_nan_value (x y : float) :
  is_nan_value x \/ is_nan_value y -> is_nan_value (x - y).
Proof.
  unfold is_nan_value, value. rewrite sub_spec.
  destruct (Prim2SF x) as [sx | [ | ] | | sx mx ex];
    destruct (Prim2SF y) as [sy | [ | ] | | sy my ey];
    cbn [SF2E]; intros [H | H]; try discriminate H; reflexivity.
Qed.

(** X12: the spacing check does not see a NaN time: a difference with a
    NaN time on either side is NaN and is not below 0.05, so a path in
    which, of every two consecutive times, one is NaN is never rejected with
    the spacing error. *)
Theorem pathCmd_Check_NaN_times {E : Collaborators} (cmd : pathCmd.t) (l : Log) :
  pathCmd.Coordsys cmd = "Horizon"%string \/ pathCmd.Coordsys cmd = "ICRS"%string ->
  pathCmd.Points cmd <> [] ->
  (forall i, (1 <= i < List.length (pathCmd.Points cmd))%nat ->
     is_nan_value (at0 (pathCmd.index (pathCmd.Points cmd) i)) \/
     is_nan_value (at0 (pathCmd.index (pathCmd.Points cmd) (i - 1)))) ->
  fst (pathCmd.Check cmd l) <> Some errSpacing.
Proof.
  intros Hc Hne Hnan Hs.
  apply (pathCmd_Check_spacing_iff cmd l Hc Hne) in Hs.
  destruct Hs as (i & Hi & Hb).
  pose proof (sub_nan_value _ _ (Hnan i Hi)) as Hg.
  unfold below, gap in Hb. unfold is_nan_value in Hg. rewrite Hg in Hb. exact Hb.
Qed.

Lemma pathCmd_Check_NaN_times_witness :
  fst (pathCmd.Check (E := Bench.collaborators)
         {| pathCmd.Coordsys := "Horizon";
            pathCmd.Points := [(7, 10, 20, 0, 0); (nan, 10, 20, 0, 0); (3, 10, 20, 0, 0)]%float |}
         [])
  <> Some errSpacing.
Proof.
  apply (pathCmd_Check_NaN_times (E := Bench.collaborators)
           {| pathCmd.Coordsys := "Horizon";
              pathCmd.Points :=
                [(7, 10, 20, 0, 0); (nan, 10, 20, 0, 0); (3, 10, 20, 0, 0)]%float |} []).
  - left. reflexivity.
  - discriminate.
  - intros i Hi. cbn [List.length pathCmd.Points] in Hi.
    destruct i as [ | [ | [ | i]]]; [ lia | left; reflexivity | right; reflexivity | lia ].
Defined.
